(** * Subject and language classification of the notes server

    A shallow embedding of the note-generation endpoint of the notes
    server (the [/generate-notes] handler of the Express application,
    with its two local helpers [detectLanguage] and [detectSubject]) and
    the properties of its classification logic.

    JavaScript strings are sequences of UTF-16 code units; the external
    generative model, the persistence layer and the Unicode case mapping
    of the host are operations of an abstract [Host]. *)

From Stdlib Require Import List NArith ZArith String Ascii Bool Arith Lia.
Import ListNotations.

(** ** JavaScript strings *)

Module JSString.

(** A string value: its UTF-16 code units, in order. *)
Definition jsstring := list N.

(** An ASCII literal of the source, as a string value. *)
Definition lit (s : string) : jsstring :=
  map N_of_ascii (list_ascii_of_string s).
Arguments lit s%_string.

Fixpoint eqb (a b : jsstring) : bool :=
  match a, b with
  | [], [] => true
  | x :: a', y :: b' => N.eqb x y && eqb a' b'
  | _, _ => false
  end.

(** Truthiness of a string: only the empty string is falsy. *)
Definition truthy (s : jsstring) : bool :=
  match s with [] => false | _ :: _ => true end.

(** [s.startsWith(p)] *)
Fixpoint startsWith (s p : jsstring) : bool :=
  match p, s with
  | [], _ => true
  | _ :: _, [] => false
  | x :: p', y :: s' => N.eqb x y && startsWith s' p'
  end.

(** [s.includes(p)]: [p] occurs in [s] at some position. *)
Fixpoint includes (s p : jsstring) : bool :=
  startsWith s p ||
  match s with
  | [] => false
  | _ :: s' => includes s' p
  end.

(** [s.substring(0, n)] *)
Definition substring0 (n : nat) (s : jsstring) : jsstring := firstn n s.

(** [s.split(sep)] for a separator of one code unit; the result is
    never empty. *)
Fixpoint split (sep : N) (s : jsstring) : list jsstring :=
  match s with
  | [] => [[]]
  | c :: r =>
      if N.eqb c sep then [] :: split sep r
      else match split sep r with
           | h :: t => (c :: h) :: t
           | [] => [[c]]
           end
  end.

(** [parts[0]] of a split. *)
Definition first (parts : list jsstring) : jsstring := hd [] parts.

(** WhiteSpace and LineTerminator code units of ECMAScript, the ones
    [trim] strips. *)
Definition isWhiteSpace (c : N) : bool :=
  ((9 <=? c) && (c <=? 13) || (c =? 32) || (c =? 160) || (c =? 5760)
   || (8192 <=? c) && (c <=? 8202) || (c =? 8232) || (c =? 8233)
   || (c =? 8239) || (c =? 8287) || (c =? 12288) || (c =? 65279))%N.

Fixpoint trimStart (s : jsstring) : jsstring :=
  match s with
  | c :: r => if isWhiteSpace c then trimStart r else s
  | [] => []
  end.

Definition trimEnd (s : jsstring) : jsstring := rev (trimStart (rev s)).

(** [s.trim()] *)
Definition trim (s : jsstring) : jsstring := trimEnd (trimStart s).

(** [s.replace(/[...]/g, '')] for a class of single code units. *)
Definition removeAll (cls : N -> bool) (s : jsstring) : jsstring :=
  filter (fun c => negb (cls c)) s.

(** A string is blank when it holds white space only. *)
Definition blank (s : jsstring) : bool := forallb isWhiteSpace s.

(** Lower-casing of the Basic Latin letters, the part of
    [toLowerCase] that is independent of the Unicode tables. *)
Definition asciiLowerUnit (c : N) : N :=
  if ((65 <=? c) && (c <=? 90))%N then (c + 32)%N else c.

Definition asciiToLowerCase (s : jsstring) : jsstring :=
  map asciiLowerUnit s.

(** Code units of the punctuation the templates use. *)
Definition dquote : N := 34%N.
Definition newline : N := 10%N.
Definition period : N := 46%N.

End JSString.
Import JSString.

(** A plain object used as a map from string keys: the entries in
    insertion order, which is the order [Object.entries] yields for
    keys that are not array indices. *)
Definition JSObject (V : Type) := list (jsstring * V).

Fixpoint objGet {V} (o : JSObject V) (k : jsstring) : option V :=
  match o with
  | [] => None
  | (k', v) :: o' => if eqb k' k then Some v else objGet o' k
  end.

(** [o[k] = v]: an existing key keeps its place, a new key goes last. *)
Fixpoint objSet {V} (o : JSObject V) (k : jsstring) (v : V) : JSObject V :=
  match o with
  | [] => [(k, v)]
  | (k', v') :: o' =>
      if eqb k' k then (k', v) :: o' else (k', v') :: objSet o' k v
  end.

Definition objKeys {V} (o : JSObject V) : list jsstring := map fst o.

(** ** The static tables of [detectSubject] *)

Local Open Scope string_scope.

Definition allowedSubjects : list jsstring :=
  map lit
    [ "Mathematics"; "Physics"; "Chemistry"; "Biology"; "Programming";
      "Computer Science"; "History"; "Geography"; "Literature"; "Language";
      "Art"; "Music"; "Sports"; "Entertainment"; "General" ].

Definition synonyms : JSObject jsstring :=
  [ (lit "computer science", lit "Computer Science");
    (lit "cs", lit "Computer Science");
    (lit "coding", lit "Programming");
    (lit "programming", lit "Programming");
    (lit "program", lit "Programming");
    (lit "math", lit "Mathematics");
    (lit "mathematics", lit "Mathematics");
    (lit "physics", lit "Physics");
    (lit "chemistry", lit "Chemistry");
    (lit "biology", lit "Biology");
    (lit "history", lit "History");
    (lit "geography", lit "Geography");
    (lit "literature", lit "Literature");
    (lit "language", lit "Language");
    (lit "linguistics", lit "Language");
    (lit "art", lit "Art");
    (lit "music", lit "Music");
    (lit "sports", lit "Sports");
    (lit "entertainment", lit "Entertainment");
    (lit "general", lit "General") ].

Definition keywordMap : JSObject (list jsstring) :=
  [ (lit "Mathematics", map lit
    [ "integral"; "derivative"; "algebra"; "calculus"; "theorem"; "matrix"; "probability";
      "geometry"; "trigonometry"; "statistics"; "differential equations"; "vector"; "tensor";
      "limit"; "set theory"; "number theory"; "topology"; "combinatorics"; "prime";
      "logarithm"; "exponential"; "polynomial"; "inequality"; "function"; "graph theory";
      "optimization"; "linear algebra"; "stochastic"; "random variable"; "bayesian";
      "euclidean"; "non-euclidean"; "metric"; "proof"; "axiom"; "lemma"; "corollary";
      "sequence"; "series"; "p-adic"; "symmetry"; "group theory"; "ring"; "field"; "manifold";
      "integrable"; "partial derivative"; "gradient"; "divergence"; "curl" ]);
    (lit "Physics", map lit
    [ "velocity"; "force"; "quantum"; "relativity"; "particle"; "energy"; "momentum";
      "thermodynamics"; "optics"; "mass"; "acceleration"; "friction"; "gravity";
      "electromagnetism"; "wave"; "frequency"; "amplitude"; "spin"; "string theory"; "boson";
      "fermion"; "neutrino"; "photon"; "entropy"; "enthalpy"; "pressure"; "fluid dynamics";
      "nuclear"; "atomic"; "collision"; "radiation"; "magnetism"; "capacitance"; "resistance";
      "superconductivity"; "black hole"; "cosmology"; "astrophysics"; "inertia"; "scalar";
      "vector"; "field"; "higgs"; "dark matter"; "dark energy"; "interference"; "diffraction";
      "relativistic" ]);
    (lit "Chemistry", map lit
    [ "molecule"; "reaction"; "chemical"; "atom"; "bond"; "ph"; "acid"; "oxidation";
      "synthesis"; "catalyst"; "organic"; "inorganic"; "covalent"; "ionic"; "solution";
      "solvent"; "solute"; "concentration"; "stoichiometry"; "thermochemistry"; "enthalpy";
      "electrons"; "orbitals"; "periodic table"; "isotope"; "polymer"; "crystal";
      "precipitate"; "titration"; "spectroscopy"; "chromatography"; "equilibrium"; "buffer";
      "alkaline"; "halogen"; "transition metal"; "electrochemistry"; "redox"; "molarity";
      "kinetics"; "enthalpy"; "hydrocarbon"; "ester"; "amine" ]);
    (lit "Biology", map lit
    [ "cell"; "organism"; "evolution"; "dna"; "protein"; "genome"; "photosynthesis"; "mitosis";
      "meiosis"; "enzyme"; "chromosome"; "ribosome"; "mutation"; "gene"; "genetics";
      "epigenetics"; "ecosystem"; "bacteria"; "virus"; "fungi"; "microbe"; "adaptation";
      "natural selection"; "anatomy"; "physiology"; "immune system"; "respiration";
      "metabolism"; "hormone"; "organ"; "species"; "taxonomy"; "reproduction"; "biosphere";
      "ecology"; "biome"; "cloning"; "biotechnology"; "neuron"; "synapse"; "membrane";
      "cytoplasm"; "mitochondria"; "chloroplast" ]);
    (lit "Programming", map lit
    [ "function"; "variable"; "loop"; "algorithm"; "code"; "compile"; "runtime"; "bug";
      "debug"; "class"; "object"; "inheritance"; "polymorphism"; "interface"; "recursion";
      "pointer"; "array"; "list"; "dictionary"; "hashmap"; "framework"; "library"; "module";
      "package"; "thread"; "concurrency"; "parallel"; "asynchronous"; "promise"; "exception";
      "error"; "syntax"; "interpreter"; "compiler"; "optimization"; "API"; "REST"; "JSON";
      "XML"; "version control"; "git"; "regex"; "IDE"; "container"; "virtual machine" ]);
    (lit "Computer Science", map lit
    [ "computer"; "algorithm"; "data structure"; "database"; "machine learning"; "computing";
      "cpu"; "gpu"; "compiler theory"; "operating system"; "network"; "protocol";
      "distributed system"; "cloud"; "virtualization"; "encryption"; "cryptography";
      "complexity"; "big o"; "neural network"; "ai"; "deep learning"; "nlp"; "data mining";
      "information theory"; "storage"; "cache"; "parallelism"; "graph"; "tree"; "binary";
      "hashing"; "blockchain"; "cybersecurity"; "quantum computing"; "software engineering";
      "microarchitecture" ]);
    (lit "History", map lit
    [ "war"; "empire"; "revolution"; "histor"; "ancient"; "medieval"; "colonial";
      "civilization"; "dynasty"; "treaty"; "monarchy"; "republic"; "conquest"; "military";
      "battle"; "renaissance"; "industrial"; "cold war"; "world war"; "enlightenment";
      "pharaoh"; "archaeology"; "imperialism"; "feudalism"; "constitution"; "reform";
      "rebellion"; "independence"; "exploration"; "migration"; "cultural heritage";
      "chronicle"; "historic event" ]);
    (lit "Geography", map lit
    [ "continent"; "country"; "climate"; "mountain"; "river"; "latitude"; "longitude";
      "topography"; "desert"; "ocean"; "island"; "plate tectonics"; "weather"; "region";
      "urban"; "rural"; "population"; "ecosystem"; "rainforest"; "volcano"; "earthquake";
      "map"; "cartography"; "habitat"; "biome"; "altitude"; "sea level"; "landform"; "delta";
      "canyon"; "valley"; "glacier" ]);
    (lit "Literature", map lit
    [ "novel"; "poem"; "poetry"; "literature"; "character"; "narrative"; "prose"; "metaphor";
      "allegory"; "symbolism"; "theme"; "plot"; "drama"; "tragedy"; "comedy"; "author";
      "genre"; "fiction"; "nonfiction"; "myth"; "legend"; "epic"; "short story"; "rhetoric";
      "dialogue"; "narrator"; "memoir"; "biography"; "autobiography"; "manuscript"; "allusion";
      "satire"; "imagery" ]);
    (lit "Language", map lit
    [ "grammar"; "vocabulary"; "sentence"; "syntax"; "linguistics"; "translation"; "phonetics";
      "phonology"; "morphology"; "semantics"; "pragmatics"; "dialect"; "accent"; "lexicon";
      "conjugation"; "declension"; "orthography"; "writing system"; "etymology"; "discourse";
      "phrase"; "idiom"; "bilingual"; "multilingual"; "pronunciation" ]);
    (lit "Art", map lit
    [ "painting"; "sculpture"; "canvas"; "gallery"; "museum"; "visual"; "aesthetics";
      "portrait"; "landscape"; "abstract"; "expressionism"; "realism"; "surrealism";
      "impressionism"; "installation"; "performance art"; "fine art"; "brushstroke";
      "composition"; "color theory"; "perspective"; "illustration"; "sketch"; "modern art";
      "contemporary art"; "exhibit" ]);
    (lit "Music", map lit
    [ "melody"; "harmony"; "rhythm"; "instrument"; "composer"; "song"; "audio"; "pitch";
      "tempo"; "tone"; "timbre"; "scale"; "chord"; "genre"; "orchestra"; "symphony"; "opera";
      "choir"; "band"; "beat"; "lyrics"; "arrangement"; "composition"; "improvisation";
      "acoustic"; "electronic"; "soundtrack"; "mixing"; "recording"; "notation"; "conductor";
      "performance" ]);
    (lit "Sports", map lit
    [ "tournament"; "score"; "player"; "match"; "athlete"; "game"; "league"; "championship";
      "coach"; "training"; "stadium"; "team"; "referee"; "offense"; "defense"; "tactics";
      "strategy"; "injury"; "endurance"; "competition"; "sportsmanship"; "record"; "ranking";
      "event"; "marathon"; "sprint"; "ball"; "equipment"; "playoff"; "fitness" ]);
    (lit "Entertainment", map lit
    [ "movie"; "film"; "television"; "celebrity"; "show"; "entertainment"; "series"; "episode";
      "director"; "actor"; "actress"; "script"; "screenplay"; "animation"; "cartoon";
      "streaming"; "documentary"; "thriller"; "comedy"; "drama"; "action"; "cinema";
      "franchise"; "soundtrack"; "visual effects"; "special effects"; "broadcast"; "media";
      "trailer" ]) ].

Local Close Scope string_scope.
Arguments lit s%_string.

(** ** The host: external model, persistence and runtime services *)

(** The settling of an awaited promise. *)
Inductive Outcome (A : Type) : Type :=
| Resolved (a : A)
| Rejected (message : jsstring).
Arguments Resolved {A} a.
Arguments Rejected {A} message.

(** A file kept in memory by the upload middleware. *)
Record UploadedFile := {
  originalname : jsstring;
  mimetype : jsstring;
  buffer : list N;
  size : N
}.

(** The [content] of a request once resolved: a string, or the uploaded
    file object itself. These are the contents of a form request with
    plain fields; a body parsed from JSON or from nested form keys can
    make [content] a value of another kind (a number, an array, an
    object), and such requests are outside this development. *)
Inductive Content :=
| Str (s : jsstring)
| Upload (f : UploadedFile).

Inductive Part :=
| TextPart (text : jsstring)
| InlineData (mimeType : jsstring) (data : jsstring).

Record GenerationConfig := {
  temperature : N * N;          (* a decimal literal n/d *)
  topK : option N;
  topP : option (N * N);
  maxOutputTokens : N
}.

(** The argument of [model.generateContent]; the role is always "user". *)
Record GenRequest := {
  parts : list Part;
  generationConfig : GenerationConfig
}.

Record NoteData := {
  input_type : jsstring;
  generated_notes : jsstring;
  detected_language : jsstring;
  detected_subject : option jsstring;
  original_content : jsstring
}.

Record SavedNote := {
  _id : jsstring;
  createdAt : jsstring
}.

(** What the server consumes and does not define: the generative model
    ([generateContent] resolves with the text of the response or
    rejects; a response whose [text()] accessor throws is a rejection
    too, both sit in the same [try] block at every call), the database
    ([connectDB], [saveNotes]) and the runtime's string services. *)
Class Host := {
  World : Type;
  generateContent : GenRequest -> World -> Outcome jsstring * World;
  connectDB : World -> bool * World;
  saveNotes : NoteData -> World -> Outcome SavedNote * World;
  toLowerCase : jsstring -> jsstring;
  utf8Decode : list N -> jsstring;
  base64 : list N -> jsstring
}.

(** What a run does to the outside, in order. *)
Inductive Event :=
| EvGenerate (r : GenRequest)
| EvConnectDB
| EvSave (n : NoteData).

Section Server.

Context {host : Host}.

(** The process state: the outside world, the module-level flag
    [isDatabaseConnected], and the history of external calls. *)
Record State := {
  world : World;
  isDatabaseConnected : bool;
  trace : list Event
}.

(** Sequential asynchronous code: every [await] runs to its end before
    the next statement. *)
Definition M (A : Type) : Type := State -> A * State.

Definition ret {A} (a : A) : M A := fun st => (a, st).

Definition bind {A B} (m : M A) (k : A -> M B) : M B :=
  fun st => let (a, st') := m st in k a st'.

Notation "x <- m ;; k" := (bind m (fun x => k))
  (at level 61, m at next level, right associativity).

(** [await model.generateContent(r)] *)
Definition generate (r : GenRequest) : M (Outcome jsstring) :=
  fun st =>
    let (o, w) := generateContent r (world st) in
    (o, {| world := w;
           isDatabaseConnected := isDatabaseConnected st;
           trace := trace st ++ [EvGenerate r] |}).

(** [await saveNotes(noteData)] *)
Definition save (n : NoteData) : M (Outcome SavedNote) :=
  fun st =>
    let (o, w) := saveNotes n (world st) in
    (o, {| world := w;
           isDatabaseConnected := isDatabaseConnected st;
           trace := trace st ++ [EvSave n] |}).

Definition ensureDBConnection : M bool :=
  fun st =>
    if isDatabaseConnected st then (true, st)
    else
      let (c, w) := connectDB (world st) in
      (c, {| world := w;
             isDatabaseConnected := c;
             trace := trace st ++ [EvConnectDB] |}).

(** *** Template strings *)

Definition quote (s : jsstring) : jsstring := dquote :: s ++ [dquote].

Fixpoint join (sep : jsstring) (l : list jsstring) : jsstring :=
  match l with
  | [] => []
  | [s] => s
  | s :: l' => s ++ sep ++ join sep l'
  end.

Definition nl : jsstring := [newline].

Definition languagePrompt (text : jsstring) : jsstring :=
  lit "Identify the language of this text. Respond with ONLY the language name in English (e.g., "
  ++ join (lit ", ")
       (map (fun s => quote (lit s))
          [ "English"; "Spanish"; "French"; "Hindi"; "Kannada"; "Tamil";
            "Telugu"; "Bengali"; "Gujarati"; "Marathi"; "Punjabi";
            "Chinese"; "Japanese"; "Korean"; "Arabic"; "German";
            "Italian"; "Portuguese"; "Russian" ]%string)
  ++ lit ", etc.). Do not include any other text or explanation:"
  ++ nl ++ nl
  ++ quote (substring0 500 text).

Definition languageRequest (text : jsstring) : GenRequest :=
  {| parts := [TextPart (languagePrompt text)];
     generationConfig :=
       {| temperature := (1, 10)%N; topK := None; topP := None;
          maxOutputTokens := 20%N |} |}.

Definition subjectPrompt (snippet : jsstring) : jsstring :=
  lit "Analyze this text and identify the single most appropriate academic subject it belongs to. Reply with ONLY one of these exact subjects (case-insensitive match will be accepted): "
  ++ join (lit ", ") (map quote allowedSubjects)
  ++ lit ". Do not add any other text or explanation."
  ++ nl ++ nl
  ++ lit "Text to analyze:" ++ nl
  ++ quote snippet.

Definition subjectRequest (snippet : jsstring) : GenRequest :=
  {| parts := [TextPart (subjectPrompt snippet)];
     generationConfig :=
       {| temperature := (0, 10)%N; topK := None; topP := None;
          maxOutputTokens := 30%N |} |}.

(** *** detectLanguage *)

(** The cleaning of the model's answer: first line, cut at the first
    period, trimmed. *)
Definition cleanLanguage (responseText : jsstring) : jsstring :=
  let detectedLang := trim responseText in
  trim (first (split period (first (split newline detectedLang)))).

(** A file object has no [substring] method: the call throws inside
    the [try] before any request is made. *)
Definition detectLanguage (text : Content) : M jsstring :=
  match text with
  | Str s =>
      o <- generate (languageRequest s) ;;
      match o with
      | Resolved detected => ret (cleanLanguage detected)
      | Rejected _ => ret (lit "unknown")
      end
  | Upload _ => ret (lit "unknown")
  end.

(** *** detectSubject *)

Definition isQuoteMark (c : N) : bool :=
  ((c =? 34) || (c =? 8220) || (c =? 8221) || (c =? 8216) || (c =? 8217))%N.

(** [null] is [None]. *)
Definition normalizeDetected (raw : jsstring) : option jsstring :=
  if negb (truthy raw) then None
  else
    let s := trim (removeAll isQuoteMark raw) in
    Some (trim (first (split period (first (split newline s))))).

(** One round of the outer scoring loop: [scores[subject] = 0], then
    one increment per keyword found in the lower-cased text. (The
    entry read by [+=] was written just before, it is never
    [undefined].) *)
Definition scoreSubject (textLower : jsstring) (scores : JSObject nat)
    (entry : jsstring * list jsstring) : JSObject nat :=
  let (subject, keywords) := entry in
  fold_left
    (fun sc kw =>
       if truthy kw && includes textLower kw
       then objSet sc subject
              (match objGet sc subject with Some n => n | None => 0 end + 1)
       else sc)
    keywords (objSet scores subject 0).

Definition computeScores (textLower : jsstring)
    (kmap : JSObject (list jsstring)) : JSObject nat :=
  fold_left (scoreSubject textLower) kmap [].

(** [entries.sort((a,b) => b[1]-a[1])]: the sort of the language is
    stable, so entries of equal score keep their order. *)
Fixpoint insertDesc (e : jsstring * nat) (l : list (jsstring * nat))
  : list (jsstring * nat) :=
  match l with
  | [] => [e]
  | y :: l' =>
      if snd y <=? snd e then e :: y :: l' else y :: insertDesc e l'
  end.

Definition sortDesc (l : list (jsstring * nat)) : list (jsstring * nat) :=
  fold_right insertDesc [] l.

(** [sortedScores[0] || [null, 0]], then the two components. *)
Definition best (scores : JSObject nat) : option jsstring * nat :=
  match sortDesc scores with
  | e :: _ => (Some (fst e), snd e)
  | [] => (None, 0)
  end.

Definition heuristicSubject (scores : JSObject nat) : option jsstring :=
  fst (best scores).

Definition heuristicScore (scores : JSObject nat) : nat :=
  snd (best scores).

(** The three normalisation steps of the model's answer. *)
Definition exactMatch (cleaned : jsstring) : option jsstring :=
  find (fun s => eqb (toLowerCase s) (toLowerCase cleaned)) allowedSubjects.

Definition containsMatch (cleaned : jsstring) : option jsstring :=
  find (fun s => includes (toLowerCase cleaned) (toLowerCase s))
    allowedSubjects.

Fixpoint synonymMatch (cleaned : jsstring) (syn : JSObject jsstring)
  : option jsstring :=
  match syn with
  | [] => None
  | (k, v) :: syn' =>
      if includes (toLowerCase cleaned) k then Some v
      else synonymMatch cleaned syn'
  end.

Definition truthyOpt (o : option jsstring) : bool :=
  match o with Some s => truthy s | None => false end.

Definition modelMapping (cleaned : option jsstring) : option jsstring :=
  if truthyOpt cleaned then
    let c := match cleaned with Some c => c | None => [] end in
    let m1 := let exact := exactMatch c in
              if truthyOpt exact then exact else None in
    let m2 := if negb (truthyOpt m1)
              then let contains := containsMatch c in
                   if truthyOpt contains then contains else m1
              else m1 in
    if negb (truthyOpt m2)
    then match synonymMatch c synonyms with
         | Some v => Some v
         | None => m2
         end
    else m2
  else None.

(** The decision between the model's label and the heuristic's. *)
Definition decideSubject (scores : JSObject nat) (modelMapped : option jsstring)
  : option jsstring :=
  let heuristicSubject := heuristicSubject scores in
  let heuristicScore := heuristicScore scores in
  if truthyOpt modelMapped then
    let m := match modelMapped with Some m => m | None => [] end in
    let modelScore := match objGet scores m with Some n => n | None => 0 end in
    if (2 <=? heuristicScore)
       && negb (match heuristicSubject with
                | Some h => eqb h m
                | None => false
                end)
       && (modelScore <? heuristicScore)
    then heuristicSubject
    else modelMapped
  else if 0 <? heuristicScore then heuristicSubject
  else Some (lit "General").

(** The part of the [try] block after the model has answered. *)
Definition classify (text : jsstring) (responseText : jsstring)
  : option jsstring :=
  let raw := trim responseText in
  let cleaned := normalizeDetected raw in
  let textLower := toLowerCase text in
  let scores := computeScores textLower keywordMap in
  decideSubject scores (modelMapping cleaned).

(** The snippet sent to the model: [text.substring(0, 2000)] of a
    non-empty text, the empty string otherwise. *)
Definition snippetOf (text : jsstring) : jsstring :=
  if truthy text && (0 <? List.length text) then substring0 2000 text
  else [].

(** A file object has no [length]: the snippet is empty, the request
    is made, and [toLowerCase] then throws inside the [try]. *)
Definition detectSubject (text : Content) : M (option jsstring) :=
  match text with
  | Str s =>
      o <- generate (subjectRequest (snippetOf s)) ;;
      match o with
      | Resolved responseText => ret (classify s responseText)
      | Rejected _ => ret (Some (lit "General"))
      end
  | Upload _ =>
      _ <- generate (subjectRequest []) ;;
      ret (Some (lit "General"))
  end.

(** *** The [/generate-notes] handler *)

(** A value inside a template string: [null] prints as "null", an
    object as "[object Object]". *)
Definition showSubject (s : option jsstring) : jsstring :=
  match s with Some s => s | None => lit "null" end.

Definition showContent (c : Content) : jsstring :=
  match c with Str s => s | Upload _ => lit "[object Object]" end.

Definition textPrompt (content : Content) (detectedLanguage : jsstring)
    (detectedSubject : option jsstring) : jsstring :=
  lit "You are an expert academic note-taker specializing in "
  ++ showSubject detectedSubject
  ++ lit ". Please elaborate and organize the following professor's notes into "
  ++ lit "comprehensive, well-structured academic notes."
  ++ nl
  ++ nl
  ++ [55357; 57000]%N
  ++ lit " CRITICAL LANGUAGE REQUIREMENT "
  ++ [55357; 57000]%N
  ++ nl
  ++ lit "The input text is written in "
  ++ detectedLanguage
  ++ lit ". "
  ++ nl
  ++ lit "You MUST write your ENTIRE response in "
  ++ detectedLanguage
  ++ lit " ONLY."
  ++ nl
  ++ lit "Do NOT use English or any other language."
  ++ nl
  ++ lit "Every single word, sentence, and paragraph must be in "
  ++ detectedLanguage
  ++ lit "."
  ++ nl
  ++ lit "If you write even one word in English, you have FAILED this task."
  ++ nl
  ++ nl
  ++ [55357; 56538]%N
  ++ lit " SUBJECT FOCUS: "
  ++ showSubject detectedSubject
  ++ nl
  ++ lit "Focus on creating notes that are relevant to "
  ++ showSubject detectedSubject
  ++ lit " and use appropriate terminology and concepts from this field."
  ++ nl
  ++ nl
  ++ lit "Input text in "
  ++ detectedLanguage
  ++ lit ": "
  ++ [dquote]
  ++ showContent content
  ++ [dquote]
  ++ nl
  ++ nl
  ++ lit "Generate detailed, organized academic notes in "
  ++ detectedLanguage
  ++ lit " language only, focusing on "
  ++ showSubject detectedSubject
  ++ lit ". Remember: "
  ++ detectedLanguage
  ++ lit " ONLY!".

Definition audioFilePrompt (content : UploadedFile) : jsstring :=
  lit "You are an expert academic note-taker. Please transcribe this audio "
  ++ lit "file and then generate comprehensive academic notes from the "
  ++ lit "transcript."
  ++ nl
  ++ nl
  ++ [55357; 57000]%N
  ++ lit " CRITICAL LANGUAGE REQUIREMENT "
  ++ [55357; 57000]%N
  ++ nl
  ++ lit "You MUST detect the language of the audio content and generate your "
  ++ lit "response ENTIRELY in that same language. Do NOT translate anything to "
  ++ lit "English or any other language. Every single word of your response "
  ++ lit "must be in the original language of the audio."
  ++ nl
  ++ nl
  ++ [55357; 56538]%N
  ++ lit " SUBJECT DETECTION"
  ++ nl
  ++ lit "Also identify the academic subject (Mathematics, Physics, Chemistry, "
  ++ lit "Biology, Programming, Computer Science, History, Geography, "
  ++ lit "Literature, Language, Art, Music, Sports, Entertainment, or General) "
  ++ lit "and focus your notes accordingly."
  ++ nl
  ++ nl
  ++ lit "Audio file: "
  ++ originalname content
  ++ lit " ("
  ++ mimetype content
  ++ lit ")"
  ++ nl
  ++ nl
  ++ lit "Generate detailed, organized academic notes in the original language "
  ++ lit "of the audio only.".

Definition transcriptPrompt (content : Content) (detectedLanguage : jsstring)
    (detectedSubject : option jsstring) : jsstring :=
  lit "You are an expert academic note-taker specializing in "
  ++ showSubject detectedSubject
  ++ lit ". Generate comprehensive academic notes from the following audio "
  ++ lit "transcript."
  ++ nl
  ++ nl
  ++ [55357; 57000]%N
  ++ lit " CRITICAL LANGUAGE REQUIREMENT "
  ++ [55357; 57000]%N
  ++ nl
  ++ lit "The transcript is written in "
  ++ detectedLanguage
  ++ lit ". "
  ++ nl
  ++ lit "You MUST write your ENTIRE response in "
  ++ detectedLanguage
  ++ lit " ONLY."
  ++ nl
  ++ lit "Do NOT use English or any other language."
  ++ nl
  ++ lit "Every single word, sentence, and paragraph must be in "
  ++ detectedLanguage
  ++ lit "."
  ++ nl
  ++ lit "If you write even one word in English, you have FAILED this task."
  ++ nl
  ++ nl
  ++ [55357; 56538]%N
  ++ lit " SUBJECT FOCUS: "
  ++ showSubject detectedSubject
  ++ nl
  ++ lit "Focus on creating notes that are relevant to "
  ++ showSubject detectedSubject
  ++ lit " and use appropriate terminology and concepts from this field."
  ++ nl
  ++ nl
  ++ lit "Audio transcript in "
  ++ detectedLanguage
  ++ lit ": "
  ++ [dquote]
  ++ showContent content
  ++ [dquote]
  ++ nl
  ++ nl
  ++ lit "Generate detailed, organized academic notes in "
  ++ detectedLanguage
  ++ lit " language only, focusing on "
  ++ showSubject detectedSubject
  ++ lit ". Remember: "
  ++ detectedLanguage
  ++ lit " ONLY!".

Definition validationPrompt (targetLanguage generatedNotes : jsstring)
  : jsstring :=
  [55357; 57000]%N
  ++ lit " URGENT LANGUAGE CORRECTION TASK "
  ++ [55357; 57000]%N
  ++ nl
  ++ nl
  ++ lit "The following text should be written in "
  ++ targetLanguage
  ++ lit "."
  ++ nl
  ++ nl
  ++ lit "You MUST ensure the ENTIRE text is in "
  ++ targetLanguage
  ++ lit " ONLY. Do NOT include words from other languages."
  ++ nl
  ++ nl
  ++ lit "Original text to correct:"
  ++ nl
  ++ [dquote]
  ++ generatedNotes
  ++ [dquote]
  ++ nl
  ++ nl
  ++ lit "Return ONLY the corrected text in "
  ++ targetLanguage
  ++ lit ".".

Definition GEMINI_MODEL : jsstring := lit "gemini-2.5-flash-lite".

Inductive Persistence :=
| Stored (note_id saved_at : jsstring)
| SaveFailed
| NotConnected.

(** The JSON body of a successful answer. *)
Record SuccessBody := {
  res_input_type : jsstring;
  res_model_used : jsstring;
  res_detected_language : jsstring;
  res_detected_subject : option jsstring;
  res_generated_notes : jsstring;
  res_persistence : Persistence
}.

Inductive Response :=
| Status400 (error : jsstring)
| Status200 (body : SuccessBody)
| Status500 (details : jsstring).

(** What the branches on the input type leave for the generation. *)
Record Prepared := {
  userPrompt : jsstring;
  audioFile : option UploadedFile;
  detectedLanguage : jsstring;
  detectedSubject : option jsstring
}.

(** The condition under which the text branch detects the language a
    second time. *)
Definition suspicious (detectedLanguage : jsstring) : bool :=
  eqb detectedLanguage (lit "unknown")
  || includes detectedLanguage (lit "English")
  || includes detectedLanguage (lit "##").

Definition textBranch (content : Content) : M Prepared :=
  detectedLanguage <- detectLanguage content ;;
  detectedSubject <- detectSubject content ;;
  detectedLanguage <-
    (if suspicious detectedLanguage then detectLanguage content
     else ret detectedLanguage) ;;
  ret {| userPrompt := textPrompt content detectedLanguage detectedSubject;
         audioFile := None;
         detectedLanguage := detectedLanguage;
         detectedSubject := detectedSubject |}.

Definition audioFileBranch (content : UploadedFile) : M Prepared :=
  ret {| userPrompt := audioFilePrompt content;
         audioFile := Some content;
         detectedLanguage := lit "unknown";
         detectedSubject := Some (lit "General") |}.

Definition transcriptBranch (content : Content) : M Prepared :=
  detectedLanguage <- detectLanguage content ;;
  detectedSubject <- detectSubject content ;;
  ret {| userPrompt :=
           transcriptPrompt content detectedLanguage detectedSubject;
         audioFile := None;
         detectedLanguage := detectedLanguage;
         detectedSubject := detectedSubject |}.

Definition notesRequest (p : Prepared) : GenRequest :=
  {| parts :=
       match audioFile p with
       | Some f =>
           [TextPart (userPrompt p);
            InlineData (mimetype f) (base64 (buffer f))]
       | None => [TextPart (userPrompt p)]
       end;
     generationConfig :=
       {| temperature := (2, 10)%N; topK := Some 40%N;
          topP := Some (8, 10)%N; maxOutputTokens := 2048%N |} |}.

Definition validationRequest (targetLanguage generatedNotes : jsstring)
  : GenRequest :=
  {| parts := [TextPart (validationPrompt targetLanguage generatedNotes)];
     generationConfig :=
       {| temperature := (1, 10)%N; topK := None; topP := None;
          maxOutputTokens := 2048%N |} |}.

(** The language the notes are corrected to and stored under. *)
Definition targetLanguageOf (detectedLanguage : jsstring) : jsstring :=
  if truthy detectedLanguage && negb (eqb detectedLanguage (lit "unknown"))
  then detectedLanguage
  else lit "English".

Definition originalContent (content : Content) : jsstring :=
  match content with
  | Str s => s
  | Upload f =>
      if truthy (originalname f) then originalname f else lit "audio_file"
  end.

(** From the generated notes to the answer: correction pass, record,
    persistence. *)
Definition finish (type : jsstring) (content : Content) (p : Prepared)
    (generatedNotes : jsstring) : M Response :=
  let targetLanguage := targetLanguageOf (detectedLanguage p) in
  v <- generate (validationRequest targetLanguage generatedNotes) ;;
  let generatedNotes :=
    match v with
    | Resolved validatedNotes =>
        if truthy validatedNotes && truthy (trim validatedNotes)
        then trim validatedNotes
        else generatedNotes
    | Rejected _ => generatedNotes
    end in
  let detectedLanguage := targetLanguage in
  let noteData :=
    {| input_type := type;
       generated_notes := generatedNotes;
       detected_language := detectedLanguage;
       detected_subject := detectedSubject p;
       original_content := originalContent content |} in
  let body persistence :=
    {| res_input_type := type;
       res_model_used := GEMINI_MODEL;
       res_detected_language := detectedLanguage;
       res_detected_subject := detectedSubject p;
       res_generated_notes := generatedNotes;
       res_persistence := persistence |} in
  dbConnected <- ensureDBConnection ;;
  if dbConnected then
    s <- save noteData ;;
    match s with
    | Resolved savedNote =>
        ret (Status200 (body (Stored (_id savedNote) (createdAt savedNote))))
    | Rejected _ => ret (Status200 (body SaveFailed))
    end
  else ret (Status200 (body NotConnected)).

(** The branch on the input type; [None] when the type is neither
    "text" nor "audio". *)
Definition prepare (type : jsstring) (content : Content)
  : M (option Prepared) :=
  if eqb type (lit "text") then
    p <- textBranch content ;; ret (Some p)
  else if eqb type (lit "audio") then
    match content with
    | Upload f => p <- audioFileBranch f ;; ret (Some p)
    | Str _ => p <- transcriptBranch content ;; ret (Some p)
    end
  else ret None.

Definition missingFields : jsstring :=
  lit "Missing " ++ quote (lit "type") ++ lit " or "
  ++ quote (lit "content") ++ lit " in the form data.".

Definition invalidType : jsstring :=
  lit "Invalid input type. Must be " ++ quote (lit "text") ++ lit " or "
  ++ quote (lit "audio") ++ lit ".".

(** The handler, from the check of the two form fields on. A rejected
    generation is the only failure that reaches the outer [catch]. *)
Definition generateNotes (type : option jsstring) (content : option Content)
  : M Response :=
  match type, content with
  | Some type, Some content =>
      if negb (truthy type)
         || negb (match content with Str s => truthy s | Upload _ => true end)
      then ret (Status400 missingFields)
      else
        prepared <- prepare type content ;;
        match prepared with
        | None => ret (Status400 invalidType)
        | Some p =>
            result <- generate (notesRequest p) ;;
            match result with
            | Resolved generatedNotes => finish type content p generatedNotes
            | Rejected message => ret (Status500 message)
            end
        end
  | _, _ => ret (Status400 missingFields)
  end.

(** The content of the request as the first lines of the handler
    resolve it, once the upload middleware has let the request through:
    an uploaded audio file as it is, an uploaded text file decoded, the
    form field otherwise. *)
Definition resolveContent (bodyContent : option jsstring)
    (file : option UploadedFile) : option Content :=
  match file with
  | Some file =>
      if startsWith (mimetype file) (lit "audio/") then Some (Upload file)
      else if startsWith (mimetype file) (lit "text/")
      then Some (Str (utf8Decode (buffer file)))
      else option_map Str bodyContent
  | None => option_map Str bodyContent
  end.

End Server.

Arguments M {host} A.

(** ** A scripted host

    A host that runs without a network: the model gives the answers of a
    script one after the other (and rejects once the script is over),
    the database is up or down as the script says, and strings are
    lower-cased on the Basic Latin range, where the runtime's
    [toLowerCase] does the same. *)

Module Scripted.

Record Script := {
  answers : list (Outcome jsstring);
  dbUp : bool
}.

Definition nextAnswer (_ : GenRequest) (w : Script)
  : Outcome jsstring * Script :=
  match answers w with
  | [] => (Rejected (lit "fetch failed"), w)
  | a :: rest => (a, {| answers := rest; dbUp := dbUp w |})
  end.

#[export] Instance host : Host := {|
  World := Script;
  generateContent := nextAnswer;
  connectDB := fun w => (dbUp w, w);
  saveNotes := fun _ w =>
    (Resolved {| _id := lit "n1"; createdAt := lit "t1" |}, w);
  toLowerCase := asciiToLowerCase;
  utf8Decode := fun bytes => bytes;
  base64 := fun bytes => bytes
|}.

(** The state of a fresh process before a run of the script. *)
Definition start (script : list (Outcome jsstring)) : State :=
  {| world := {| answers := script; dbUp := false |};
     isDatabaseConnected := false;
     trace := [] |}.

End Scripted.

(** ** The classification as the specification words it *)

(** The number of entries of a keyword list found in a lower-cased
    text. *)
Definition hits (textLower : jsstring) (keywords : list jsstring) : nat :=
  List.length
    (filter (fun kw => truthy kw && includes textLower kw) keywords).

(** A keyword occurs in a text without regard to case when it does once
    both are lower-cased. *)
Definition occursIgnoringCase {host : Host} (text kw : jsstring) : bool :=
  includes (toLowerCase text) (toLowerCase kw).

(** The heuristic score of the specification: the number of keywords of
    the list that occur in the text without regard to case. *)
Definition caseInsensitiveHits {host : Host} (text : jsstring)
    (keywords : list jsstring) : nat :=
  List.length (filter (occursIgnoringCase text) keywords).

(** The keywords associated with a label: its list in the table, none
    for a label the table lacks. *)
Definition keywordsOf (label : jsstring) : list jsstring :=
  match objGet keywordMap label with Some kws => kws | None => [] end.

(** The first entry that reaches the highest score of an object. *)
Definition firstMaximum (scores : JSObject nat) (label : jsstring) (s : nat)
  : Prop :=
  exists before after,
    scores = before ++ (label, s) :: after
    /\ Forall (fun e => snd e < s) before
    /\ Forall (fun e => snd e <= s) after.

(** The combination of the two votes: [M] the model's label if any,
    [H] and [s] the heuristic's label and score, [scoreOf] the heuristic
    score of a label. *)
Definition voteRule (M : option jsstring) (H : option jsstring) (s : nat)
    (scoreOf : jsstring -> nat) : option jsstring :=
  match M with
  | Some m =>
      if negb (match H with Some h => eqb h m | None => false end)
         && (2 <=? s) && (scoreOf m <? s)
      then H
      else Some m
  | None => if 0 <? s then H else Some (lit "General")
  end.

(** The language a run of [detectLanguage] yields from the settling of
    its request. *)
Definition languageOf (o : Outcome jsstring) : jsstring :=
  match o with
  | Resolved responseText => cleanLanguage responseText
  | Rejected _ => lit "unknown"
  end.

(** Whether all entries of a list of strings differ. *)
Fixpoint distinct (l : list jsstring) : bool :=
  match l with
  | [] => true
  | k :: l' => negb (existsb (eqb k) l') && distinct l'
  end.

Definition memberOf (l : list jsstring) (s : jsstring) : bool :=
  existsb (eqb s) l.


(** The note records handed to the database in a run of events. *)
Definition savedRecords (events : list Event) : list NoteData :=
  flat_map (fun e => match e with EvSave n => [n] | _ => [] end) events.

(** A computation that never saves a record. *)
Definition quiet {host : Host} {A : Type} (m : M A) : Prop :=
  forall st, exists events,
    trace (snd (m st)) = trace st ++ events /\ savedRecords events = [].

(** Whether a keyword can occur in a text of white space only. *)
Definition visible (kw : jsstring) : bool :=
  existsb (fun c => negb (isWhiteSpace c)) kw.


(** The requests of [detectLanguage] are the ones capped at 20 output
    tokens. *)
Definition isLanguageDetection (e : Event) : bool :=
  match e with
  | EvGenerate r => N.eqb (maxOutputTokens (generationConfig r)) 20
  | _ => false
  end.

Definition languageDetections (events : list Event) : nat :=
  List.length (filter isLanguageDetection events).


(** ** The rest of the server and of the notes browser *)

(** The record the handler builds for an answer. *)
Definition recordOf (content : Content) (type language : jsstring)
    (subject : option jsstring) (notes : jsstring) : NoteData :=
  {| input_type := type;
     generated_notes := notes;
     detected_language := language;
     detected_subject := subject;
     original_content := originalContent content |}.

(** The calls of the model and the connection attempts in a run of
    events. *)
Definition modelCalls (events : list Event) : nat :=
  List.length
    (filter (fun e => match e with EvGenerate _ => true | _ => false end)
       events).

Definition connectionAttempts (events : list Event) : nat :=
  List.length
    (filter (fun e => match e with EvConnectDB => true | _ => false end)
       events).

(** Whether the two form fields pass the first check of the handler. *)
Definition fieldsPresent (type : option jsstring) (content : option Content)
  : bool :=
  match type, content with
  | Some t, Some (Str s) => truthy t && truthy s
  | Some t, Some (Upload _) => truthy t
  | _, _ => false
  end.

(** *** The page list of the pagination component *)

Inductive PageItem :=
| Page (n : Z)
| Ellipsis.

(** The integers from [lo] to [hi], both included, as the counting
    loops push them. *)
Definition range (lo hi : Z) : list Z :=
  map (fun k => (lo + Z.of_nat k)%Z) (seq 0 (Z.to_nat (hi - lo + 1))).

(** The page list, for a current page and a number of pages that are
    integers. The code computes on double-precision numbers; what it
    adds and subtracts ([currentPage - 2],
    [startPage + maxVisiblePages - 1], [totalPages - 1], the [i++] of
    the loops) is exact as long as the
    two props are [safePage], and the facts about the list are stated
    for such props. *)
Definition safePage (n : Z) : Prop := (- 2 ^ 52 <= n <= 2 ^ 52)%Z.

Definition getPageNumbers (currentPage totalPages : Z) : list PageItem :=
  let maxVisiblePages := 5%Z in
  if (totalPages <=? maxVisiblePages)%Z then map Page (range 1 totalPages)
  else
    let startPage := Z.max 1 (currentPage - 2) in
    let endPage := Z.min totalPages (startPage + maxVisiblePages - 1) in
    (if (1 <? startPage)%Z
     then Page 1 :: (if (2 <? startPage)%Z then [Ellipsis] else [])
     else [])
    ++ map Page (range startPage endPage)
    ++ (if (endPage <? totalPages)%Z
        then (if (endPage <? totalPages - 1)%Z then [Ellipsis] else [])
             ++ [Page totalPages]
        else []).

(** The page numbers of a list, without the ellipses. *)
Definition pagesOf (items : list PageItem) : list Z :=
  flat_map (fun i => match i with Page n => [n] | Ellipsis => [] end) items.

(** A list continues the pages after [prev] without a hole: a number
    follows its predecessor directly, and an ellipsis stands for at
    least one page and is followed by a number. *)
Fixpoint continues (prev : Z) (items : list PageItem) : Prop :=
  match items with
  | [] => True
  | Page n :: rest => n = (prev + 1)%Z /\ continues n rest
  | Ellipsis :: rest =>
      match rest with
      | Page n :: rest' => (prev + 1 < n)%Z /\ continues n rest'
      | _ => False
      end
  end.


Definition isModelCall (e : Event) : Prop :=
  match e with EvGenerate _ => True | _ => False end.

(** A computation whose only effect outside is to call the model: it
    leaves the database and the connection flag alone. *)
Definition modelOnly {host : Host} {A : Type} (m : M A) : Prop :=
  forall st, exists events,
    trace (snd (m st)) = trace st ++ events
    /\ Forall isModelCall events
    /\ isDatabaseConnected (snd (m st)) = isDatabaseConnected st.


(** A fresh process of the scripted host whose database can be
    reached. *)
Definition startOnline (script : list (Outcome jsstring))
  : @State Scripted.host :=
  @Build_State Scripted.host
    {| Scripted.answers := script; Scripted.dbUp := true |} false [].


(** *** The notes service of the browser: the query of [fetchNotes] *)

Module NotesApi.

(** A value of a parameter: a number or a string. *)
Inductive Value :=
| Num (n : Z)
| Text (s : jsstring).

Definition truthyValue (v : Value) : bool :=
  match v with
  | Num n => negb (Z.eqb n 0)
  | Text s => truthy s
  end.

(** The argument of [fetchNotes]; [None] is a property that is not
    given. *)
Record Params := {
  page : option Value;
  limit : option Value;
  search : option Value;
  inputType : option Value;
  startDate : option Value;
  endDate : option Value;
  language : option Value;
  subject : option Value;
  sort : option Value;
  sortBy : option Value
}.

(** A destructuring default. *)
Definition orDefault (given : option Value) (default : Value) : Value :=
  match given with Some v => v | None => default end.

(** [if (v) queryParams.append(name, v)] *)
Definition append (name : jsstring) (v : Value) : list (jsstring * Value) :=
  if truthyValue v then [(name, v)] else [].

(** The entries of the query, in the order they are appended. *)
Definition queryParams (params : Params) : list (jsstring * Value) :=
  append (lit "page") (orDefault (page params) (Num 1))
  ++ append (lit "limit") (orDefault (limit params) (Num 10))
  ++ append (lit "search") (orDefault (search params) (Text []))
  ++ append (lit "inputType") (orDefault (inputType params) (Text []))
  ++ append (lit "startDate") (orDefault (startDate params) (Text []))
  ++ append (lit "endDate") (orDefault (endDate params) (Text []))
  ++ append (lit "language") (orDefault (language params) (Text []))
  ++ append (lit "subject") (orDefault (subject params) (Text []))
  ++ append (lit "sort") (orDefault (sort params) (Text []))
  ++ append (lit "sortBy") (orDefault (sortBy params) (Text [])).

(** The ten names a query can hold, in order. *)
Definition names : list jsstring :=
  [lit "page"; lit "limit"; lit "search"; lit "inputType"; lit "startDate";
   lit "endDate"; lit "language"; lit "subject"; lit "sort"; lit "sortBy"].

End NotesApi.

(** *** The notes browser: the state of the [App] component *)

Module NotesBrowser.

Section View.

Context {Note Pagination Filters : Type}.

(** [{}] as a value of the filters. *)
Variable noFilters : Filters.

(** The state variables that [fetchNotes] sets. *)
Record View := {
  notes : list Note;
  pagination : option Pagination;
  appliedFilters : Filters;
  loading : bool;
  error : option jsstring;
  currentPage : Z
}.

(** The body of an answer of the notes service. *)
Record Response := {
  status : jsstring;
  response_notes : list Note;
  response_pagination : option Pagination;
  response_appliedFilters : option Filters
}.

(** The [catch] block, then the [finally] block. *)
Definition failed (message : jsstring) (v : View) : View :=
  {| notes := [];
     pagination := None;
     appliedFilters := appliedFilters v;
     loading := false;
     error := Some (if truthy message then message
                    else lit "Failed to load notes. Please try again.");
     currentPage := currentPage v |}.

(** [fetchNotes(filters, page)] once the call of the service has
    settled with [outcome]. *)
Definition fetchNotes (outcome : Outcome Response) (page : Z) (v : View)
  : View :=
  match outcome with
  | Resolved response =>
      if eqb (status response) (lit "success") then
        {| notes := response_notes response;
           pagination := response_pagination response;
           appliedFilters :=
             match response_appliedFilters response with
             | Some f => f
             | None => noFilters
             end;
           loading := false;
           error := None;
           currentPage := page |}
      else failed (lit "Failed to fetch notes") v
  | Rejected message => failed message v
  end.

End View.

End NotesBrowser.


(** ** Facts about strings and objects *)

Lemma eqb_eq (a b : jsstring) : eqb a b = true <-> a = b.
Proof.
  revert b; induction a as [|x a IH]; intros [|y b]; simpl;
    try (split; (reflexivity || discriminate)).
  rewrite andb_true_iff, N.eqb_eq, IH.
  split; [intros [-> ->]; reflexivity | intros H; inversion H; auto].
Qed.

Lemma eqb_refl (a : jsstring) : eqb a a = true.
Proof. apply eqb_eq; reflexivity. Qed.

Lemma eqb_neq (a b : jsstring) : eqb a b = false <-> a <> b.
Proof.
  rewrite <- eqb_eq. destruct (eqb a b); split; congruence.
Qed.

Lemma truthy_nonempty (s : jsstring) : truthy s = true <-> s <> [].
Proof. destruct s; simpl; split; congruence. Qed.

Lemma startsWith_In (s p : jsstring) :
  startsWith s p = true -> forall c, In c p -> In c s.
Proof.
  revert s; induction p as [|x p IH]; intros s H c Hc; [destruct Hc|].
  destruct s as [|y s]; simpl in H; [discriminate|].
  apply andb_true_iff in H as [Hxy Hp]. apply N.eqb_eq in Hxy; subst y.
  destruct Hc as [->|Hc]; [left; reflexivity | right; eauto].
Qed.

(** Every code unit of a substring is a code unit of the string. *)
Lemma includes_In (s p : jsstring) :
  includes s p = true -> forall c, In c p -> In c s.
Proof.
  induction s as [|y s IH]; intros H c Hc.
  - destruct p; [destruct Hc | discriminate].
  - change (startsWith (y :: s) p || includes s p = true) in H.
    apply orb_true_iff in H as [H|H].
    + eapply startsWith_In; eauto.
    + right; eauto.
Qed.

Section ObjectFacts.

Variable V : Type.
Implicit Types (o : JSObject V) (k : jsstring) (v : V).

Lemma objGet_None o k : objGet o k = None <-> ~ In k (objKeys o).
Proof.
  induction o as [|[k' v'] o IH]; simpl; [tauto|].
  destruct (eqb k' k) eqn:E.
  - apply eqb_eq in E. split; [discriminate | intros H; exfalso; auto].
  - apply eqb_neq in E. rewrite IH. tauto.
Qed.

Lemma objGet_Some_In o k v : objGet o k = Some v -> In (k, v) o.
Proof.
  induction o as [|[k' v'] o IH]; simpl; [discriminate|].
  destruct (eqb k' k) eqn:E; [|auto].
  apply eqb_eq in E; subst k'. intros [= ->]. auto.
Qed.

(** Assigning to a key the object lacks adds the entry at the end. *)
Lemma objSet_fresh o k v : objGet o k = None -> objSet o k v = o ++ [(k, v)].
Proof.
  induction o as [|[k' v'] o IH]; simpl; [reflexivity|].
  destruct (eqb k' k); [discriminate|]. intros H; rewrite IH; auto.
Qed.

Lemma objGet_last o k v : objGet o k = None -> objGet (o ++ [(k, v)]) k = Some v.
Proof.
  induction o as [|[k' v'] o IH]; simpl.
  - rewrite eqb_refl; reflexivity.
  - destruct (eqb k' k); [discriminate | auto].
Qed.

(** Assigning again to the last key replaces its value in place. *)
Lemma objSet_last o k v v' :
  objGet o k = None -> objSet (o ++ [(k, v)]) k v' = o ++ [(k, v')].
Proof.
  induction o as [|[k' w] o IH]; simpl.
  - rewrite eqb_refl; reflexivity.
  - destruct (eqb k' k); [discriminate|]. intros H; rewrite IH; auto.
Qed.

End ObjectFacts.

Lemma memberOf_In (l : list jsstring) (s : jsstring) :
  memberOf l s = true <-> In s l.
Proof.
  unfold memberOf. rewrite existsb_exists. split.
  - intros (x & Hx & E). apply eqb_eq in E; subst; assumption.
  - intros H. exists s. split; [assumption | apply eqb_refl].
Qed.

Lemma distinct_NoDup (l : list jsstring) : distinct l = true -> NoDup l.
Proof.
  induction l as [|k l IH]; simpl; intros H; constructor.
  - apply andb_true_iff in H as [H _]. apply negb_true_iff in H.
    intros Hin. apply memberOf_In in Hin. unfold memberOf in Hin. congruence.
  - apply IH. apply andb_true_iff in H as [_ H]. exact H.
Qed.

(** ** The heuristic scores *)

Section ScoreFacts.

Variable textLower : jsstring.

Let count (sc : JSObject nat) (subject kw : jsstring) : JSObject nat :=
  if truthy kw && includes textLower kw
  then objSet sc subject
         (match objGet sc subject with Some n => n | None => 0 end + 1)
  else sc.

Lemma count_keywords (scores : JSObject nat) (subject : jsstring)
    (keywords : list jsstring) (n : nat) :
  objGet scores subject = None ->
  fold_left (fun sc kw => count sc subject kw) keywords
    (scores ++ [(subject, n)])
  = scores ++ [(subject, n + hits textLower keywords)].
Proof.
  intros Hfresh. revert n.
  induction keywords as [|kw kws IH]; intros n; simpl.
  - unfold hits; simpl. rewrite Nat.add_0_r. reflexivity.
  - unfold count at 2, hits. simpl.
    destruct (truthy kw && includes textLower kw); simpl.
    + rewrite objGet_last, objSet_last by assumption.
      rewrite IH. unfold hits. do 3 f_equal. lia.
    + apply IH.
Qed.

(** A round of the scoring loop for a subject not scored yet appends
    the subject with the number of its keywords found. *)
Lemma scoreSubject_fresh (scores : JSObject nat) (subject : jsstring)
    (keywords : list jsstring) :
  objGet scores subject = None ->
  scoreSubject textLower scores (subject, keywords)
  = scores ++ [(subject, hits textLower keywords)].
Proof.
  intros Hfresh. unfold scoreSubject.
  rewrite objSet_fresh by assumption.
  apply (count_keywords scores subject keywords 0 Hfresh).
Qed.

Lemma fold_scoreSubject (kmap : JSObject (list jsstring))
    (acc : JSObject nat) :
  NoDup (objKeys acc ++ objKeys kmap) ->
  fold_left (scoreSubject textLower) kmap acc
  = acc ++ map (fun e => (fst e, hits textLower (snd e))) kmap.
Proof.
  revert acc. induction kmap as [|[subject keywords] kmap IH];
    intros acc Hnd; cbn [fold_left map fst snd].
  - rewrite app_nil_r; reflexivity.
  - assert (Hfresh : objGet acc subject = None).
    { apply objGet_None. cbn [objKeys map fst] in Hnd.
      apply NoDup_remove_2 in Hnd. intros Hin. apply Hnd.
      apply in_or_app; left; assumption. }
    rewrite scoreSubject_fresh by assumption.
    rewrite IH.
    + rewrite <- app_assoc. reflexivity.
    + unfold objKeys in *. rewrite map_app, <- app_assoc. exact Hnd.
Qed.

(** The scores object holds, for each entry of a table without
    repeated keys and in the table's order, the number of the entry's
    keywords that the lower-cased text includes. *)
Lemma computeScores_hits (kmap : JSObject (list jsstring)) :
  NoDup (objKeys kmap) ->
  computeScores textLower kmap
  = map (fun e => (fst e, hits textLower (snd e))) kmap.
Proof.
  intros Hnd. unfold computeScores.
  rewrite fold_scoreSubject; [reflexivity | exact Hnd].
Qed.

End ScoreFacts.

Lemma keywordMap_keys_distinct : NoDup (objKeys keywordMap).
Proof. apply distinct_NoDup. vm_compute. reflexivity. Qed.

Lemma scores_of_text (textLower : jsstring) :
  computeScores textLower keywordMap
  = map (fun e => (fst e, hits textLower (snd e))) keywordMap.
Proof. apply computeScores_hits, keywordMap_keys_distinct. Qed.

Lemma scores_keys (textLower : jsstring) :
  objKeys (computeScores textLower keywordMap) = objKeys keywordMap.
Proof.
  rewrite scores_of_text. unfold objKeys. rewrite map_map. reflexivity.
Qed.

(** ** The winner of the heuristic vote *)

Lemma insertDesc_nonempty (e : jsstring * nat) (l : list (jsstring * nat)) :
  insertDesc e l <> [].
Proof. destruct l as [|y l]; simpl; [|destruct (snd y <=? snd e)]; discriminate. Qed.

Lemma sortDesc_nil (l : list (jsstring * nat)) : sortDesc l = [] -> l = [].
Proof.
  destruct l as [|e l]; [reflexivity|]. simpl. intros H.
  exfalso. exact (insertDesc_nonempty _ _ H).
Qed.

(** The head of the sorted entries is the first entry of the object
    that reaches the highest score. *)
Lemma sortDesc_head (l : list (jsstring * nat)) :
  forall e rest, sortDesc l = e :: rest -> firstMaximum l (fst e) (snd e).
Proof.
  induction l as [|x l IH]; intros e rest Hs; [discriminate|].
  simpl in Hs. destruct (sortDesc l) as [|y sorted] eqn:Hl.
  - apply sortDesc_nil in Hl; subst l. simpl in Hs. injection Hs as <- _.
    exists [], []. destruct x; simpl. repeat split; constructor.
  - specialize (IH y sorted eq_refl).
    destruct IH as (before & after & Hsplit & Hb & Ha).
    simpl in Hs. destruct (snd y <=? snd x) eqn:Hle.
    + apply Nat.leb_le in Hle. injection Hs as <- _.
      exists [], l. destruct x as [k n]; simpl in *.
      repeat split; [constructor|].
      subst l. apply Forall_app; split.
      * eapply Forall_impl; [|exact Hb]. simpl; intros; lia.
      * constructor; [simpl; lia|].
        eapply Forall_impl; [|exact Ha]. simpl; intros; lia.
    + apply Nat.leb_gt in Hle. injection Hs as <- _.
      exists (x :: before), after. subst l. repeat split.
      * constructor; assumption.
      * exact Ha.
Qed.

Lemma firstMaximum_In (scores : JSObject nat) (label : jsstring) (s : nat) :
  firstMaximum scores label s -> In (label, s) scores.
Proof.
  intros (before & after & -> & _). apply in_or_app; right; left; reflexivity.
Qed.

(** The two shapes of [best]: the first maximum of a non-empty object,
    or the default pair of an empty one. *)
Lemma best_cases (scores : JSObject nat) :
  (exists label s, best scores = (Some label, s) /\ firstMaximum scores label s)
  \/ (best scores = (None, 0) /\ scores = []).
Proof.
  unfold best. destruct (sortDesc scores) as [|e rest] eqn:Hs.
  - right. split; [reflexivity | apply sortDesc_nil; assumption].
  - left. exists (fst e), (snd e). split; [reflexivity|].
    eapply sortDesc_head; eassumption.
Qed.

Lemma heuristicSubject_key (scores : JSObject nat) (label : jsstring) :
  heuristicSubject scores = Some label -> In label (objKeys scores).
Proof.
  unfold heuristicSubject.
  destruct (best_cases scores) as [(l & s & -> & Hmax)|[-> _]]; simpl;
    [|discriminate].
  intros [= ->]. apply firstMaximum_In in Hmax.
  unfold objKeys. apply in_map_iff. exists (label, s); auto.
Qed.

Lemma heuristicScore_positive (scores : JSObject nat) :
  0 < heuristicScore scores -> exists label, heuristicSubject scores = Some label.
Proof.
  unfold heuristicScore, heuristicSubject.
  destruct (best_cases scores) as [(l & s & -> & _)|[-> _]]; simpl.
  - eauto.
  - lia.
Qed.

(** ** The tables *)

Lemma keywordMap_keys_allowed (label : jsstring) :
  In label (objKeys keywordMap) ->
  In label allowedSubjects /\ label <> lit "General".
Proof.
  intros H.
  assert (Hall : forallb
            (fun k => memberOf allowedSubjects k && negb (eqb k (lit "General")))
            (objKeys keywordMap) = true) by (vm_compute; reflexivity).
  rewrite forallb_forall in Hall. specialize (Hall label H).
  apply andb_true_iff in Hall as [Hm Hg]. split.
  - apply memberOf_In; assumption.
  - apply eqb_neq. apply negb_true_iff; assumption.
Qed.

Lemma synonyms_values_allowed (k v : jsstring) :
  In (k, v) synonyms -> In v allowedSubjects.
Proof.
  intros H.
  assert (Hall : forallb (fun e => memberOf allowedSubjects (snd e)) synonyms
                 = true) by (vm_compute; reflexivity).
  rewrite forallb_forall in Hall. apply memberOf_In. exact (Hall (k, v) H).
Qed.

Lemma General_allowed : In (lit "General") allowedSubjects.
Proof. apply memberOf_In. vm_compute. reflexivity. Qed.

Lemma allowedSubjects_truthy (label : jsstring) :
  In label allowedSubjects -> truthy label = true.
Proof.
  intros H.
  assert (Hall : forallb truthy allowedSubjects = true)
    by (vm_compute; reflexivity).
  rewrite forallb_forall in Hall. auto.
Qed.

(** ** The model vote and the decision *)

Section VoteFacts.

Context {host : Host}.

Lemma synonymMatch_value (cleaned : jsstring) (syn : JSObject jsstring)
    (v : jsstring) :
  synonymMatch cleaned syn = Some v -> exists k, In (k, v) syn.
Proof.
  induction syn as [|[k w] syn IH]; simpl; [discriminate|].
  destruct (includes (toLowerCase cleaned) k).
  - intros [= ->]. exists k; auto.
  - intros H. destruct (IH H) as (k' & Hk). exists k'; auto.
Qed.

(** Whatever the model answers, a label obtained from its answer is
    one of the allowed subjects. *)
Lemma modelMapping_allowed (cleaned : option jsstring) (m : jsstring) :
  modelMapping cleaned = Some m -> In m allowedSubjects.
Proof.
  unfold modelMapping. destruct (truthyOpt cleaned); [|discriminate].
  cbv zeta. set (c := match cleaned with Some c => c | None => [] end).
  destruct (exactMatch c) as [e|] eqn:E1;
    destruct (containsMatch c) as [n|] eqn:E2;
    destruct (synonymMatch c synonyms) as [v|] eqn:E3;
    simpl;
    repeat match goal with
           | |- context [truthy ?s] => destruct (truthy s); simpl
           end;
    intros H; try discriminate; injection H as <-;
    try (apply find_some in E1; tauto);
    try (apply find_some in E2; tauto);
    try (apply synonymMatch_value in E3 as (k & Hk);
         eapply synonyms_values_allowed; eassumption).
Qed.

Lemma modelMapping_truthy (cleaned : option jsstring) (m : jsstring) :
  modelMapping cleaned = Some m -> truthyOpt (modelMapping cleaned) = true.
Proof.
  intros H. rewrite H. simpl.
  apply allowedSubjects_truthy, (modelMapping_allowed _ _ H).
Qed.

(** The decision agrees with the rule of the specification whenever
    the model's label, if there is one, is not the empty string. *)
Lemma decideSubject_voteRule (scores : JSObject nat)
    (modelMapped : option jsstring) :
  truthyOpt modelMapped = match modelMapped with Some _ => true | None => false end ->
  decideSubject scores modelMapped
  = voteRule modelMapped (heuristicSubject scores) (heuristicScore scores)
      (fun m => match objGet scores m with Some n => n | None => 0 end).
Proof.
  intros Ht. unfold decideSubject, voteRule. rewrite Ht.
  destruct modelMapped as [m|]; [|reflexivity].
  destruct (heuristicSubject scores) as [h|]; [destruct (eqb h m)|];
    destruct (2 <=? heuristicScore scores);
    destruct (_ <? heuristicScore scores); reflexivity.
Qed.

Lemma voteRule_allowed (M H : option jsstring) (s : nat)
    (scoreOf : jsstring -> nat) :
  (forall m, M = Some m -> In m allowedSubjects) ->
  (0 < s -> exists h, H = Some h /\ In h allowedSubjects) ->
  exists label, voteRule M H s scoreOf = Some label /\ In label allowedSubjects.
Proof.
  intros HM HH. unfold voteRule. destruct M as [m|].
  - destruct (negb _ && (2 <=? s) && (scoreOf m <? s)) eqn:E.
    + apply andb_true_iff in E as [E _]. apply andb_true_iff in E as [_ E].
      apply Nat.leb_le in E. apply HH. lia.
    + exists m; auto.
  - destruct (0 <? s) eqn:E.
    + apply Nat.ltb_lt in E. auto.
    + exists (lit "General"). split; [reflexivity | apply General_allowed].
Qed.

(** The result of the classification, as the vote rule over the
    scores of the lower-cased text. *)
Lemma classify_voteRule (text responseText : jsstring) :
  let scores := computeScores (toLowerCase text) keywordMap in
  classify text responseText
  = voteRule (modelMapping (normalizeDetected (trim responseText)))
      (heuristicSubject scores) (heuristicScore scores)
      (fun m => match objGet scores m with Some n => n | None => 0 end).
Proof.
  intros scores. unfold classify. apply decideSubject_voteRule.
  destruct (modelMapping _) as [m|] eqn:E; [|reflexivity].
  rewrite <- E. eapply modelMapping_truthy; eassumption.
Qed.

Lemma classify_allowed (text responseText : jsstring) :
  exists label,
    classify text responseText = Some label /\ In label allowedSubjects.
Proof.
  rewrite classify_voteRule. apply voteRule_allowed.
  - intros m. apply modelMapping_allowed.
  - intros Hs. destruct (heuristicScore_positive _ Hs) as (h & Hh).
    exists h. split; [assumption|].
    apply heuristicSubject_key in Hh. rewrite scores_keys in Hh.
    apply keywordMap_keys_allowed in Hh. tauto.
Qed.

(** C1. On every return path -- the model's label, the heuristic's
    label, the "General" fallback and the error branch -- and for every
    input, a string or an uploaded file object, [detectSubject] returns
    one of the fifteen labels of [allowedSubjects], never [null] and
    never another string. *)
Theorem detectSubject_in_taxonomy (text : Content) (st : State) :
  exists label,
    fst (detectSubject text st) = Some label /\ In label allowedSubjects.
Proof.
  destruct text as [s|f]; unfold detectSubject, bind, generate.
  - destruct (generateContent _ (world st)) as [[responseText|message] w];
      simpl.
    + apply classify_allowed.
    + exists (lit "General"). split; [reflexivity | apply General_allowed].
  - destruct (generateContent _ (world st)) as [o w]; simpl.
    exists (lit "General"). split; [reflexivity | apply General_allowed].
Qed.

End VoteFacts.

Section DetectionFacts.

Context {host : Host}.

(** When the model answers, [detectSubject] classifies the answer. *)
Lemma detectSubject_resolved (text responseText : jsstring) (st : State)
    (w : World) :
  generateContent (subjectRequest (snippetOf text)) (world st)
  = (Resolved responseText, w) ->
  fst (detectSubject (Str text) st) = classify text responseText.
Proof.
  intros Hcall. unfold detectSubject, bind, generate.
  rewrite Hcall. reflexivity.
Qed.

(** C2. When the model has answered and its normalised answer is a
    label [M], the heuristic's top label [H] of score [s] is returned
    exactly when [H] differs from [M], [s >= 2] and [s] exceeds the
    heuristic score of [M]; otherwise [M] is returned. When the answer
    gives no label, [H] is returned if [s > 0] and "General" if not. *)
Theorem detectSubject_vote_combination (text responseText : jsstring)
    (st : State) (w : World) :
  generateContent (subjectRequest (snippetOf text)) (world st)
  = (Resolved responseText, w) ->
  let scores := computeScores (toLowerCase text) keywordMap in
  let H := heuristicSubject scores in
  let s := heuristicScore scores in
  let scoreOf m := match objGet scores m with Some n => n | None => 0 end in
  let result := fst (detectSubject (Str text) st) in
  match modelMapping (normalizeDetected (trim responseText)) with
  | Some M =>
      (H <> Some M /\ 2 <= s /\ scoreOf M < s -> result = H)
      /\ (~ (H <> Some M /\ 2 <= s /\ scoreOf M < s) -> result = Some M)
  | None =>
      (0 < s -> result = H) /\ (s = 0 -> result = Some (lit "General"))
  end.
Proof.
  intros Hcall scores H s scoreOf result.
  assert (Hres : result
                 = voteRule (modelMapping (normalizeDetected (trim responseText)))
                     H s scoreOf).
  { unfold result. rewrite (detectSubject_resolved _ _ _ _ Hcall).
    apply classify_voteRule. }
  rewrite Hres. unfold voteRule.
  destruct (modelMapping _) as [M|].
  - assert (Hdiff : negb (match H with Some h => eqb h M | None => false end)
                    = true <-> H <> Some M).
    { destruct H as [h|]; simpl.
      - rewrite negb_true_iff, eqb_neq. split; congruence.
      - split; [discriminate | reflexivity]. }
    destruct (negb _ && (2 <=? s) && (scoreOf M <? s)) eqn:E.
    + split; [reflexivity|]. intros Hn. exfalso. apply Hn.
      apply andb_true_iff in E as [E E3]. apply andb_true_iff in E as [E1 E2].
      apply Hdiff in E1. apply Nat.leb_le in E2. apply Nat.ltb_lt in E3. auto.
    + split; [|reflexivity]. intros (H1 & H2 & H3).
      apply Hdiff in H1. apply Nat.leb_le in H2. apply Nat.ltb_lt in H3.
      rewrite H1, H2, H3 in E. discriminate.
  - split; intros Hs.
    + apply Nat.ltb_lt in Hs. rewrite Hs. reflexivity.
    + rewrite Hs. reflexivity.
Qed.

(** C4. A rejected call is absorbed by both detectors:
    [detectLanguage] returns "unknown" and [detectSubject] returns
    "General". Both are total functions into their result types, no
    exception leaves them. *)
Theorem detection_absorbs_rejection (text : jsstring) (st : State) :
  (forall message w,
      generateContent (languageRequest text) (world st)
      = (Rejected message, w) ->
      fst (detectLanguage (Str text) st) = lit "unknown")
  /\ (forall message w,
         generateContent (subjectRequest (snippetOf text)) (world st)
         = (Rejected message, w) ->
         fst (detectSubject (Str text) st) = Some (lit "General")).
Proof.
  split; intros message w Hcall.
  - unfold detectLanguage, bind, generate. rewrite Hcall. reflexivity.
  - unfold detectSubject, bind, generate. rewrite Hcall. reflexivity.
Qed.

(** C10. The top label of the heuristic vote is never "General", the
    keyword table has no list for it; so a "General" returned by
    [detectSubject] comes from a failed call, from the normalisation of
    the model's answer, or from the fallback taken when there is no
    model label and every score is zero. *)
Theorem heuristic_never_General (text : jsstring) :
  let scores := computeScores (toLowerCase text) keywordMap in
  heuristicSubject scores <> Some (lit "General")
  /\ forall st,
       fst (detectSubject (Str text) st) = Some (lit "General") ->
       match fst (generateContent (subjectRequest (snippetOf text)) (world st)) with
       | Rejected _ => True
       | Resolved responseText =>
           let modelMapped :=
             modelMapping (normalizeDetected (trim responseText)) in
           modelMapped = Some (lit "General")
           \/ (modelMapped = None /\ heuristicScore scores = 0)
       end.
Proof.
  intros scores.
  assert (Hheur : heuristicSubject scores <> Some (lit "General")).
  { intros Hh. apply heuristicSubject_key in Hh.
    unfold scores in Hh. rewrite scores_keys in Hh.
    apply keywordMap_keys_allowed in Hh. tauto. }
  split; [exact Hheur|]. intros st Hres.
  destruct (generateContent _ (world st)) as [[responseText|message] w] eqn:Hcall;
    simpl; [|exact I].
  rewrite (detectSubject_resolved _ _ _ _ Hcall), classify_voteRule in Hres.
  fold scores in Hres. unfold voteRule in Hres.
  destruct (modelMapping _) as [M|].
  - left. destruct (negb _ && _ && _); congruence.
  - right. split; [reflexivity|].
    destruct (0 <? heuristicScore scores) eqn:E; [congruence|].
    apply Nat.ltb_ge in E. lia.
Qed.

End DetectionFacts.

(** C8. The keyword table has a list for each of the fourteen labels
    other than "General" and for nothing else; it has no entry for
    "General", whose heuristic score is read as zero. *)
Theorem keywordMap_entries (label : jsstring) :
  In label allowedSubjects ->
  ((exists keywords, objGet keywordMap label = Some keywords)
   <-> label <> lit "General").
Proof.
  intros Hin. split.
  - intros (keywords & Hget). apply objGet_Some_In in Hget.
    assert (Hkey : In label (objKeys keywordMap)).
    { unfold objKeys. apply in_map_iff. exists (label, keywords); auto. }
    apply keywordMap_keys_allowed in Hkey. tauto.
  - intros Hne.
    assert (Hall : forallb
              (fun l => eqb l (lit "General")
                        || match objGet keywordMap l with
                           | Some _ => true
                           | None => false
                           end)
              allowedSubjects = true) by (vm_compute; reflexivity).
    rewrite forallb_forall in Hall. specialize (Hall label Hin).
    apply orb_true_iff in Hall as [Hg|Hk].
    + apply eqb_eq in Hg. contradiction.
    + destruct (objGet keywordMap label) as [keywords|]; [eauto | discriminate].
Qed.

(** The table lacks the entry the claim asks for: not every label of the
    taxonomy has a keyword list. *)
Lemma keywordMap_lacks_General :
  ~ (forall label, In label allowedSubjects ->
                   exists keywords, objGet keywordMap label = Some keywords).
Proof.
  intros Hall. destruct (Hall (lit "General") General_allowed) as (kws & Hk).
  vm_compute in Hk. discriminate.
Qed.

Lemma keywordMap_entries_witness :
  In (lit "Music") allowedSubjects
  /\ ((exists keywords, objGet keywordMap (lit "Music") = Some keywords)
      <-> lit "Music" <> lit "General").
Proof.
  assert (Hin : In (lit "Music") allowedSubjects)
    by (apply memberOf_In; vm_compute; reflexivity).
  split; [exact Hin | exact (keywordMap_entries (lit "Music") Hin)].
Defined.

(** ** Runs on the scripted host *)

Import Scripted.

(** Three keywords of Mathematics outvote a model that answers
    "Physics". *)
Lemma detectSubject_vote_combination_witness :
  fst (detectSubject (Str (lit "an integral, a derivative and a theorem"))
         (start [Resolved (lit "Physics")]))
  = Some (lit "Mathematics").
Proof.
  pose proof (detectSubject_vote_combination
                (lit "an integral, a derivative and a theorem")
                (lit "Physics") (start [Resolved (lit "Physics")])
                {| answers := []; dbUp := false |} eq_refl) as Hrule.
  vm_compute in Hrule. destruct Hrule as [Hheur _].
  vm_compute. apply Hheur. repeat split; [discriminate | lia | lia].
Defined.

Lemma detection_absorbs_rejection_witness :
  fst (detectLanguage (Str (lit "hola")) (start [Rejected (lit "quota")]))
  = lit "unknown"
  /\ fst (detectSubject (Str (lit "hola")) (start [Rejected (lit "quota")]))
     = Some (lit "General").
Proof.
  destruct (detection_absorbs_rejection (lit "hola")
              (start [Rejected (lit "quota")])) as [Hlang Hsubj].
  split.
  - apply (Hlang (lit "quota") {| answers := []; dbUp := false |}).
    reflexivity.
  - apply (Hsubj (lit "quota") {| answers := []; dbUp := false |}).
    reflexivity.
Defined.

Lemma heuristic_never_General_witness :
  let text := lit "hola" in
  let st := start [Resolved (lit "General")] in
  let scores := computeScores (toLowerCase text) keywordMap in
  modelMapping (normalizeDetected (trim (lit "General"))) = Some (lit "General")
  \/ (modelMapping (normalizeDetected (trim (lit "General"))) = None
      /\ heuristicScore scores = 0).
Proof.
  intros text st scores.
  exact (proj2 (heuristic_never_General text) st eq_refl).
Defined.

(** What does hold of the heuristic vote. The top label is the first
    entry of the table, in its order, that reaches the highest score. *)
Lemma heuristic_top_first_maximum (textLower : jsstring) :
  let scores := computeScores textLower keywordMap in
  exists label,
    heuristicSubject scores = Some label
    /\ firstMaximum scores label (heuristicScore scores).
Proof.
  intros scores. unfold heuristicSubject, heuristicScore.
  destruct (best_cases scores) as [(label & s & -> & Hmax)|[_ Hnil]].
  - exists label. auto.
  - unfold scores in Hnil. rewrite scores_of_text in Hnil. discriminate.
Qed.

(** For keywords that lower-casing leaves as they are, the score is the
    number of keywords occurring without regard to case. *)
Lemma hits_caseInsensitive {host : Host} (text : jsstring)
    (keywords : list jsstring) :
  (forall kw, In kw keywords -> truthy kw = true /\ toLowerCase kw = kw) ->
  hits (toLowerCase text) keywords = caseInsensitiveHits text keywords.
Proof.
  intros Hlow. unfold hits, caseInsensitiveHits. f_equal.
  apply filter_ext_in. intros kw Hkw. unfold occursIgnoringCase.
  destruct (Hlow kw Hkw) as [-> ->]. reflexivity.
Qed.

(** The scores read the whole text: a keyword after the first 2000 code
    units, which the snippet sent to the model leaves out, is counted. *)
Lemma heuristic_reads_whole_text :
  let text := repeat 32%N 2000 ++ lit "a theorem" in
  includes (snippetOf text) (lit "theorem") = false
  /\ fst (detectSubject (Str text) (start [Resolved (lit "not sure")]))
     = Some (lit "Mathematics").
Proof. vm_compute. split; reflexivity. Qed.

(** C3. The text is lower-cased before the search but the keywords are
    not: "JSON", a keyword of Programming, occurs in the text "JSON"
    without regard to case, so the score the claim describes is 1, and
    the score computed is 0; with no label from the model the result is
    "General", not "Programming". *)
Theorem uppercase_keywords_never_counted :
  let text := lit "JSON" in
  let scores := computeScores (toLowerCase text) keywordMap in
  In (lit "JSON") (keywordsOf (lit "Programming"))
  /\ caseInsensitiveHits text (keywordsOf (lit "Programming")) = 1
  /\ objGet scores (lit "Programming") = Some 0
  /\ heuristicScore scores = 0
  /\ fst (detectSubject (Str text) (start [Resolved (lit "not sure")]))
     = Some (lit "General").
Proof.
  split; [apply memberOf_In; vm_compute; reflexivity|].
  vm_compute. repeat split.
Qed.

(** ** The branches of the handler *)

Section BranchFacts.

Context {host : Host}.

Lemma detectLanguage_trace (text : jsstring) (st : State) :
  trace (snd (detectLanguage (Str text) st))
  = trace st ++ [EvGenerate (languageRequest text)].
Proof.
  unfold detectLanguage, bind, generate.
  destruct (generateContent _ (world st)) as [[detected|message] w]; reflexivity.
Qed.

Lemma detectSubject_trace (text : jsstring) (st : State) :
  trace (snd (detectSubject (Str text) st))
  = trace st ++ [EvGenerate (subjectRequest (snippetOf text))].
Proof.
  unfold detectSubject, bind, generate.
  destruct (generateContent _ (world st)) as [[responseText|message] w];
    reflexivity.
Qed.

Lemma suspicious_iff (detected : jsstring) :
  suspicious detected = true
  <-> detected = lit "unknown"
      \/ includes detected (lit "English") = true
      \/ includes detected (lit "##") = true.
Proof.
  unfold suspicious. rewrite !orb_true_iff, eqb_eq. tauto.
Qed.

(** With a suspicious first result the text branch is the sequence
    language, subject, language, on the same content. *)
Lemma textBranch_retry (content : Content) (st : State) :
  let first := detectLanguage content st in
  let subject := detectSubject content (snd first) in
  let retry := detectLanguage content (snd subject) in
  suspicious (fst first) = true ->
  textBranch content st
  = ({| userPrompt := textPrompt content (fst retry) (fst subject);
        audioFile := None;
        detectedLanguage := fst retry;
        detectedSubject := fst subject |},
     snd retry).
Proof.
  intros first subject retry Hsusp. unfold textBranch, bind, ret.
  subst retry subject first.
  destruct (detectLanguage content st) as [l1 st1]; simpl in *.
  destruct (detectSubject content st1) as [s st2]; simpl.
  rewrite Hsusp.
  destruct (detectLanguage content st2) as [l2 st3]; reflexivity.
Qed.

Lemma textBranch_retry_trace (text : jsstring) (st : State) :
  suspicious (fst (detectLanguage (Str text) st)) = true ->
  trace (snd (textBranch (Str text) st))
  = trace st
    ++ [EvGenerate (languageRequest text);
        EvGenerate (subjectRequest (snippetOf text));
        EvGenerate (languageRequest text)].
Proof.
  intros Hsusp. rewrite (textBranch_retry (Str text) st Hsusp). cbn [snd].
  rewrite detectLanguage_trace, detectSubject_trace, detectLanguage_trace.
  rewrite <- !app_assoc. reflexivity.
Qed.

(** C5. In the text branch, when the first detection gives "unknown",
    or a string with "English" or with "##" in it, [detectLanguage] runs
    once more on the same content after the subject detection, its
    result is the language of the branch, and the branch ends there: for
    a string content the branch makes three requests, the language
    request twice and unchanged. *)
Theorem textBranch_retries_once (content : Content) (st : State) :
  let first := detectLanguage content st in
  let subject := detectSubject content (snd first) in
  let retry := detectLanguage content (snd subject) in
  fst first = lit "unknown"
  \/ includes (fst first) (lit "English") = true
  \/ includes (fst first) (lit "##") = true ->
  textBranch content st
  = ({| userPrompt := textPrompt content (fst retry) (fst subject);
        audioFile := None;
        detectedLanguage := fst retry;
        detectedSubject := fst subject |},
     snd retry)
  /\ forall text,
       content = Str text ->
       trace (snd (textBranch content st))
       = trace st
         ++ [EvGenerate (languageRequest text);
             EvGenerate (subjectRequest (snippetOf text));
             EvGenerate (languageRequest text)].
Proof.
  intros first subject retry Hsusp. apply suspicious_iff in Hsusp.
  split.
  - exact (textBranch_retry content st Hsusp).
  - intros text ->. apply textBranch_retry_trace. exact Hsusp.
Qed.

(** Without a suspicious first result the text branch detects once. *)
Lemma textBranch_no_retry (content : Content) (st : State) :
  let first := detectLanguage content st in
  let subject := detectSubject content (snd first) in
  suspicious (fst first) = false ->
  textBranch content st
  = ({| userPrompt := textPrompt content (fst first) (fst subject);
        audioFile := None;
        detectedLanguage := fst first;
        detectedSubject := fst subject |},
     snd subject).
Proof.
  intros first subject Hsusp. unfold textBranch, bind, ret.
  subst subject first.
  destruct (detectLanguage content st) as [l1 st1]; simpl in *.
  destruct (detectSubject content st1) as [s st2]; simpl.
  rewrite Hsusp. reflexivity.
Qed.

Lemma transcriptBranch_run (content : Content) (st : State) :
  let first := detectLanguage content st in
  let subject := detectSubject content (snd first) in
  transcriptBranch content st
  = ({| userPrompt := transcriptPrompt content (fst first) (fst subject);
        audioFile := None;
        detectedLanguage := fst first;
        detectedSubject := fst subject |},
     snd subject).
Proof.
  intros first subject. unfold transcriptBranch, bind, ret.
  subst subject first.
  destruct (detectLanguage content st) as [l1 st1]; simpl.
  destruct (detectSubject content st1) as [s st2]; reflexivity.
Qed.

(** The two branches detect alike as long as the first language result
    is not a suspicious one. *)
Lemma transcript_agrees_without_retry (content : Content) (st : State) :
  suspicious (fst (detectLanguage content st)) = false ->
  let text := textBranch content st in
  let audio := transcriptBranch content st in
  detectedLanguage (fst text) = detectedLanguage (fst audio)
  /\ detectedSubject (fst text) = detectedSubject (fst audio)
  /\ snd text = snd audio.
Proof.
  intros Hsusp text audio. subst text audio.
  rewrite (textBranch_no_retry content st Hsusp), transcriptBranch_run.
  simpl. auto.
Qed.

End BranchFacts.

Lemma textBranch_retries_once_witness :
  let content := Str (lit "hola") in
  let st := start [Rejected (lit "quota"); Resolved (lit "History");
                   Resolved (lit "Spanish")] in
  detectedLanguage (fst (textBranch content st)) = lit "Spanish"
  /\ List.length (trace (snd (textBranch content st))) = 3.
Proof.
  intros content st.
  destruct (textBranch_retries_once content st) as [Hrun Htrace].
  - left. reflexivity.
  - split.
    + rewrite Hrun. reflexivity.
    + rewrite (Htrace (lit "hola") eq_refl). reflexivity.
Defined.

(** C7. The transcript branch of the audio type detects the language
    once and never again: where the text branch, on the same content and
    against the same answers of the model, retries a failed detection
    and obtains "Spanish", the transcript branch keeps "unknown". *)
Theorem transcript_detection_skips_retry :
  let content := Str (lit "hola") in
  let st := start [Rejected (lit "quota"); Resolved (lit "History");
                   Resolved (lit "Spanish")] in
  let text := textBranch content st in
  let audio := transcriptBranch content st in
  detectedLanguage (fst text) = lit "Spanish"
  /\ detectedLanguage (fst audio) = lit "unknown"
  /\ detectedSubject (fst text) = detectedSubject (fst audio)
  /\ trace (snd text)
     = [EvGenerate (languageRequest (lit "hola"));
        EvGenerate (subjectRequest (lit "hola"));
        EvGenerate (languageRequest (lit "hola"))]
  /\ trace (snd audio)
     = [EvGenerate (languageRequest (lit "hola"));
        EvGenerate (subjectRequest (lit "hola"))].
Proof. vm_compute. repeat split. Qed.

(** ** Blank content *)

Lemma blank_includes (t kw : jsstring) :
  blank t = true -> visible kw = true -> includes t kw = false.
Proof.
  intros Hb Hv. destruct (includes t kw) eqn:Hinc; [|reflexivity].
  apply existsb_exists in Hv as (c & Hc & Hvis).
  apply (includes_In _ _ Hinc) in Hc.
  unfold blank in Hb. rewrite forallb_forall in Hb.
  rewrite (Hb c Hc) in Hvis. discriminate.
Qed.

Lemma keywords_visible (label : jsstring) (keywords : list jsstring)
    (kw : jsstring) :
  In (label, keywords) keywordMap -> In kw keywords -> visible kw = true.
Proof.
  intros He Hk.
  assert (Hall : forallb (fun e => forallb visible (snd e)) keywordMap = true)
    by (vm_compute; reflexivity).
  rewrite forallb_forall in Hall. specialize (Hall _ He). simpl in Hall.
  rewrite forallb_forall in Hall. auto.
Qed.

Lemma blank_hits (t : jsstring) (keywords : list jsstring) :
  blank t = true ->
  (forall kw, In kw keywords -> visible kw = true) ->
  hits t keywords = 0.
Proof.
  intros Hb Hv. unfold hits.
  induction keywords as [|kw kws IH]; [reflexivity|]. simpl.
  rewrite (blank_includes t kw Hb) by (apply Hv; left; reflexivity).
  rewrite andb_false_r. apply IH. intros k Hk. apply Hv. right; assumption.
Qed.

(** No keyword scores on a text that is blank once lower-cased. *)
Lemma blank_heuristicScore (t : jsstring) :
  blank t = true -> heuristicScore (computeScores t keywordMap) = 0.
Proof.
  intros Hb. unfold heuristicScore.
  destruct (best_cases (computeScores t keywordMap))
    as [(label & s & -> & Hmax)|[-> _]]; [|reflexivity].
  simpl. apply firstMaximum_In in Hmax. rewrite scores_of_text in Hmax.
  apply in_map_iff in Hmax as ([l kws] & [= _ <-] & He). simpl.
  apply blank_hits; [assumption|].
  intros kw Hk. eapply keywords_visible; eassumption.
Qed.

Section BlankFacts.

Context {host : Host}.

(** C9. On a content of white space only (or empty), on a host whose
    lower-casing keeps blank strings blank, the detectors do not raise
    and what they return follows the model. [detectLanguage] gives the
    cleaned answer when its call resolves, whatever that answer is, and
    "unknown" when the call fails. No keyword is counted on such a
    content, so [detectSubject] gives the label normalised from the
    answer when there is one, and "General" when the call fails or the
    answer names no label. *)
Theorem blank_content_detection (text : jsstring) (st : State) :
  blank text = true ->
  (forall s, blank s = true -> blank (toLowerCase s) = true) ->
  (forall responseText w,
      generateContent (languageRequest text) (world st)
      = (Resolved responseText, w) ->
      fst (detectLanguage (Str text) st) = cleanLanguage responseText)
  /\ (forall message w,
         generateContent (languageRequest text) (world st)
         = (Rejected message, w) ->
         fst (detectLanguage (Str text) st) = lit "unknown")
  /\ heuristicScore (computeScores (toLowerCase text) keywordMap) = 0
  /\ fst (detectSubject (Str text) st)
     = match fst (generateContent (subjectRequest (snippetOf text)) (world st)) with
       | Resolved responseText =>
           match modelMapping (normalizeDetected (trim responseText)) with
           | Some M => Some M
           | None => Some (lit "General")
           end
       | Rejected _ => Some (lit "General")
       end.
Proof.
  intros Hblank Hhost. pose proof (Hhost text Hblank) as Hlower.
  split; [|split; [|split]].
  - intros responseText w Hcall. unfold detectLanguage, bind, generate.
    rewrite Hcall. reflexivity.
  - intros message w Hcall. unfold detectLanguage, bind, generate.
    rewrite Hcall. reflexivity.
  - exact (blank_heuristicScore _ Hlower).
  - destruct (generateContent (subjectRequest _) (world st))
      as [[responseText|message] w] eqn:Hcall; cbn [fst].
    + rewrite (detectSubject_resolved _ _ _ _ Hcall), classify_voteRule.
      rewrite (blank_heuristicScore _ Hlower). unfold voteRule.
      destruct (modelMapping _) as [M|]; [|reflexivity].
      rewrite andb_false_r. reflexivity.
    + unfold detectSubject, bind, generate. rewrite Hcall. reflexivity.
Qed.

End BlankFacts.

(** On three spaces the model's answers come back, not the sentinels. *)
Lemma blank_content_not_sentinel :
  fst (detectLanguage (Str (lit "   ")) (start [Resolved (lit "English")]))
  <> lit "unknown"
  /\ fst (detectSubject (Str (lit "   ")) (start [Resolved (lit "Language")]))
     <> Some (lit "General").
Proof. vm_compute. split; discriminate. Qed.

Lemma asciiLowerUnit_whiteSpace (c : N) :
  isWhiteSpace c = true -> asciiLowerUnit c = c.
Proof.
  intros Hws. unfold asciiLowerUnit.
  destruct ((65 <=? c) && (c <=? 90))%N eqn:Hletter; [|reflexivity].
  exfalso. apply andb_true_iff in Hletter as [Hlo Hhi].
  apply N.leb_le in Hlo, Hhi. unfold isWhiteSpace in Hws.
  repeat rewrite ?orb_true_iff, ?andb_true_iff, ?N.leb_le, ?N.eqb_eq in Hws.
  lia.
Qed.

(** The lower-casing of the scripted host keeps blank strings blank. *)
Lemma asciiToLowerCase_blank (s : jsstring) :
  blank s = true -> blank (asciiToLowerCase s) = true.
Proof.
  unfold blank, asciiToLowerCase. induction s as [|c s IH]; [reflexivity|].
  cbn [forallb map]. intros H. apply andb_true_iff in H as [Hc Hs].
  rewrite (asciiLowerUnit_whiteSpace c Hc), Hc. exact (IH Hs).
Qed.

Lemma blank_content_detection_witness :
  fst (detectLanguage (Str (lit "   ")) (start [Resolved (lit "unknown")]))
  = lit "unknown"
  /\ fst (detectSubject (Str (lit "   ")) (start [Resolved (lit "English")]))
     = Some (lit "General").
Proof.
  split.
  - destruct (blank_content_detection (lit "   ")
                (start [Resolved (lit "unknown")]) eq_refl
                asciiToLowerCase_blank) as (Hresolved & _).
    exact (Hresolved (lit "unknown") {| answers := []; dbUp := false |}
             eq_refl).
  - destruct (blank_content_detection (lit "   ")
                (start [Resolved (lit "English")]) eq_refl
                asciiToLowerCase_blank) as (_ & _ & _ & Hsubject).
    exact Hsubject.
Defined.

(** ** The stored language *)

Lemma targetLanguageOf_cases (detected : jsstring) :
  (detected <> [] /\ detected <> lit "unknown" ->
   targetLanguageOf detected = detected)
  /\ (detected = [] \/ detected = lit "unknown" ->
      targetLanguageOf detected = lit "English")
  /\ targetLanguageOf detected <> lit "unknown".
Proof.
  unfold targetLanguageOf.
  destruct (truthy detected) eqn:Ht; destruct (eqb detected (lit "unknown")) eqn:Hu;
    simpl; repeat split; try discriminate; try tauto.
  - apply eqb_eq in Hu. tauto.
  - apply eqb_neq in Hu. intros [-> | ->]; [discriminate | congruence].
  - apply eqb_neq in Hu. exact Hu.
  - intros [Hne _]. apply truthy_nonempty in Hne. congruence.
  - intros [Hne _]. apply truthy_nonempty in Hne. congruence.
Qed.

Lemma savedRecords_app (a b : list Event) :
  savedRecords (a ++ b) = savedRecords a ++ savedRecords b.
Proof. unfold savedRecords. apply flat_map_app. Qed.

Section RecordFacts.

Context {host : Host}.

Lemma quiet_ret (A : Type) (a : A) : quiet (ret a).
Proof. intros st. exists []. simpl. rewrite app_nil_r. auto. Qed.

Lemma quiet_bind (A B : Type) (m : M A) (k : A -> M B) :
  quiet m -> (forall a, quiet (k a)) -> quiet (bind m k).
Proof.
  intros Hm Hk st. unfold bind.
  destruct (Hm st) as (e1 & Ht1 & Hs1).
  destruct (m st) as [a st1]. simpl in Ht1.
  destruct (Hk a st1) as (e2 & Ht2 & Hs2).
  exists (e1 ++ e2). split.
  - rewrite Ht2, Ht1, app_assoc. reflexivity.
  - rewrite savedRecords_app, Hs1, Hs2. reflexivity.
Qed.

Lemma quiet_generate (r : GenRequest) : quiet (generate r).
Proof.
  intros st. exists [EvGenerate r]. unfold generate.
  destruct (generateContent r (world st)) as [o w]. auto.
Qed.

Lemma quiet_detectLanguage (content : Content) : quiet (detectLanguage content).
Proof.
  destruct content as [s|f]; simpl; [|apply quiet_ret].
  apply quiet_bind; [apply quiet_generate|].
  intros [detected|message]; apply quiet_ret.
Qed.

Lemma quiet_detectSubject (content : Content) : quiet (detectSubject content).
Proof.
  destruct content as [s|f]; simpl;
    (apply quiet_bind; [apply quiet_generate|]).
  - intros [responseText|message]; apply quiet_ret.
  - intros _. apply quiet_ret.
Qed.

Ltac quiet_steps :=
  repeat match goal with
         | |- quiet (bind _ _) => apply quiet_bind; [|intros ?]
         | |- quiet (ret _) => apply quiet_ret
         | |- quiet (detectLanguage _) => apply quiet_detectLanguage
         | |- quiet (detectSubject _) => apply quiet_detectSubject
         | |- quiet (if ?b then _ else _) => destruct b
         end.

(** The detection of language and subject saves nothing. *)
Lemma quiet_prepare (type : jsstring) (content : Content) :
  quiet (prepare type content).
Proof.
  unfold prepare, textBranch, transcriptBranch, audioFileBranch.
  destruct (eqb type (lit "text")); [quiet_steps|].
  destruct (eqb type (lit "audio")); [|quiet_steps].
  destruct content as [s|f]; quiet_steps.
Qed.

(** The answer and the record of [finish] carry the target language. *)
Lemma finish_record (type : jsstring) (content : Content) (p : Prepared)
    (generatedNotes : jsstring) (st : State) :
  exists body events,
    fst (finish type content p generatedNotes st) = Status200 body
    /\ res_detected_language body = targetLanguageOf (detectedLanguage p)
    /\ trace (snd (finish type content p generatedNotes st))
       = trace st ++ events
    /\ Forall (fun n => detected_language n
                        = targetLanguageOf (detectedLanguage p))
         (savedRecords events)
    /\ languageDetections events = 0.
Proof.
  unfold finish, bind, generate, ensureDBConnection, save, ret.
  destruct (generateContent _ (world st)) as [v w1]; simpl.
  destruct (isDatabaseConnected st); simpl.
  - destruct (saveNotes _ w1) as [[savedNote|message] w2]; simpl;
      eexists; eexists; (split; [reflexivity|]); (split; [reflexivity|]);
      rewrite <- app_assoc; (split; [reflexivity|]);
      simpl; repeat constructor.
  - destruct (connectDB w1) as [[|] w2]; simpl.
    + destruct (saveNotes _ w2) as [[savedNote|message] w3]; simpl;
        eexists; eexists; (split; [reflexivity|]); (split; [reflexivity|]);
        rewrite <- !app_assoc; (split; [reflexivity|]);
        simpl; repeat constructor.
    + eexists; eexists; (split; [reflexivity|]); (split; [reflexivity|]);
        rewrite <- !app_assoc; (split; [reflexivity|]);
        simpl; repeat constructor.
Qed.

(** C6. A successful answer of the endpoint, and every record it has
    handed to the database in that run, carry as [detected_language] the
    language the branch on the input type has detected when that is
    neither empty nor "unknown", and "English" otherwise; the language
    stored or returned is never "unknown". *)
Theorem stored_language (type : jsstring) (content : Content) (st : State)
    (body : SuccessBody) (st' : State) :
  generateNotes (Some type) (Some content) st = (Status200 body, st') ->
  exists (p : Prepared) (st1 : State),
    prepare type content st = (Some p, st1)
    /\ let detected := detectedLanguage p in
       let stored := res_detected_language body in
       (detected <> [] /\ detected <> lit "unknown" -> stored = detected)
       /\ (detected = [] \/ detected = lit "unknown" -> stored = lit "English")
       /\ stored <> lit "unknown"
       /\ exists events,
            trace st' = trace st ++ events
            /\ Forall (fun n => detected_language n = stored)
                 (savedRecords events).
Proof.
  unfold generateNotes.
  destruct (negb (truthy type) || _); [discriminate|].
  unfold bind at 1.
  destruct (quiet_prepare type content st) as (e1 & Ht1 & Hs1).
  destruct (prepare type content st) as [[p|] st1]; [|discriminate].
  simpl in Ht1. unfold bind, generate.
  destruct (generateContent (notesRequest p) (world st1))
    as [[generatedNotes|message] w2]; [|discriminate].
  intros Hrun. exists p, st1. split; [reflexivity|].
  match type of Hrun with
  | finish _ _ _ _ ?s = _ =>
      destruct (finish_record type content p generatedNotes s)
        as (body' & e2 & Hbody & Hlang & Ht2 & Hsaved & _)
  end.
  rewrite Hrun in Hbody, Ht2. simpl in Hbody, Ht2.
  injection Hbody as <-.
  destruct (targetLanguageOf_cases (detectedLanguage p)) as (Hkeep & Hdefault & Hnot).
  cbv zeta. rewrite Hlang. repeat split; try assumption.
  exists (e1 ++ [EvGenerate (notesRequest p)] ++ e2). split.
  - rewrite Ht2. simpl. rewrite Ht1, <- !app_assoc. reflexivity.
  - rewrite !savedRecords_app, Hs1. simpl. exact Hsaved.
Qed.

End RecordFacts.

(** An empty detection result is not "unknown", and is not what the
    answer carries: the answer says "English". *)
Lemma empty_detection_stored_as_English :
  let st := start [Resolved []; Resolved (lit "General");
                   Resolved (lit "notes"); Resolved (lit "notes")] in
  exists p st1 body st',
    prepare (lit "text") (Str (lit "hola")) st = (Some p, st1)
    /\ generateNotes (Some (lit "text")) (Some (Str (lit "hola"))) st
       = (Status200 body, st')
    /\ detectedLanguage p <> lit "unknown"
    /\ res_detected_language body <> detectedLanguage p.
Proof.
  intros st. do 4 eexists. split; [vm_compute; reflexivity|].
  split; [vm_compute; reflexivity|]. simpl. split; discriminate.
Qed.

Lemma stored_language_witness :
  let st := start [Resolved (lit "Spanish"); Resolved (lit "General");
                   Resolved (lit "notas"); Resolved (lit "notas")] in
  exists body st',
    generateNotes (Some (lit "text")) (Some (Str (lit "hola"))) st
    = (Status200 body, st')
    /\ res_detected_language body <> lit "unknown".
Proof.
  intros st.
  destruct (generateNotes (Some (lit "text")) (Some (Str (lit "hola"))) st)
    as [r st'] eqn:Hrun.
  assert (Hr : r = Status200
                     {| res_input_type := lit "text";
                        res_model_used := GEMINI_MODEL;
                        res_detected_language := lit "Spanish";
                        res_detected_subject := Some (lit "General");
                        res_generated_notes := lit "notas";
                        res_persistence := NotConnected |}).
  { vm_compute in Hrun. injection Hrun as <- _. reflexivity. }
  subst r. eexists. exists st'. split; [reflexivity|].
  destruct (stored_language _ _ _ _ _ Hrun)
    as (p & st1 & _ & _ & _ & Hnot & _).
  exact Hnot.
Defined.

(** ** The language detections of a whole run *)

Section RunFacts.

Context {host : Host}.

(** Over the whole handler, a text input has its language detected
    twice when the first result is suspicious and once when it is not:
    the generation, the correction pass and the persistence detect
    nothing. *)
Lemma text_run_language_detections (text : jsstring) (st : State) :
  truthy text = true ->
  let run := generateNotes (Some (lit "text")) (Some (Str text)) st in
  exists events,
    trace (snd run) = trace st ++ events
    /\ languageDetections events
       = if suspicious (fst (detectLanguage (Str text) st)) then 2 else 1.
Proof.
  intros Htext run. subst run. unfold generateNotes.
  rewrite Htext. cbn [negb orb].
  replace (negb (truthy (lit "text")) || false) with false by reflexivity.
  unfold prepare. rewrite eqb_refl. unfold bind at 1 2. cbv beta.
  pose proof (textBranch_retry (Str text) st) as Hretry.
  pose proof (textBranch_no_retry (Str text) st) as Hplain.
  pose proof (detectLanguage_trace text st) as Ht1.
  pose proof (detectSubject_trace text (snd (detectLanguage (Str text) st)))
    as Ht2.
  cbv zeta in Hretry, Hplain.
  destruct (suspicious (fst (detectLanguage (Str text) st))) eqn:Hsusp.
  - pose proof (textBranch_retry_trace text st Hsusp) as Htrace.
    rewrite (Hretry eq_refl) in Htrace |- *.
    cbn [fst snd ret] in Htrace |- *. unfold bind, generate.
    destruct (generateContent _ _) as [[generatedNotes|message] w].
    + match goal with
      | |- context [finish ?t ?c ?p ?g ?s] =>
          destruct (finish_record t c p g s)
            as (body & e & _ & _ & Hte & _ & Hcount)
      end.
      eexists. rewrite Hte. cbn [trace]. rewrite Htrace, <- !app_assoc.
      split; [reflexivity|]. cbn [app].
      unfold languageDetections in *. cbn [filter isLanguageDetection].
      simpl. rewrite Hcount. reflexivity.
    + eexists. cbn [snd trace]. rewrite Htrace, <- !app_assoc.
      split; reflexivity.
  - rewrite (Hplain eq_refl). cbn [fst snd ret]. unfold bind, generate.
    destruct (generateContent _ _) as [[generatedNotes|message] w].
    + match goal with
      | |- context [finish ?t ?c ?p ?g ?s] =>
          destruct (finish_record t c p g s)
            as (body & e & _ & _ & Hte & _ & Hcount)
      end.
      eexists. rewrite Hte. cbn [trace]. rewrite Ht2, Ht1, <- !app_assoc.
      split; [reflexivity|]. cbn [app].
      unfold languageDetections in *. cbn [filter isLanguageDetection].
      simpl. rewrite Hcount. reflexivity.
    + eexists. cbn [snd trace]. rewrite Ht2, Ht1, <- !app_assoc.
      split; reflexivity.
Qed.

End RunFacts.

(** ** The answers of the handler *)

Section HandlerFacts.

Context {host : Host}.

(** What [finish] does, case by case: one correction request, at most
    one connection attempt, at most one record saved. *)
Lemma finish_outcome (type : jsstring) (content : Content) (p : Prepared)
    (g : jsstring) (st : State) :
  let target := targetLanguageOf (detectedLanguage p) in
  let r := finish type content p g st in
  exists notes persistence events,
    fst r = Status200
              {| res_input_type := type;
                 res_model_used := GEMINI_MODEL;
                 res_detected_language := target;
                 res_detected_subject := detectedSubject p;
                 res_generated_notes := notes;
                 res_persistence := persistence |}
    /\ trace (snd r)
       = trace st ++ EvGenerate (validationRequest target g) :: events
    /\ (notes = g
        \/ exists v,
             fst (generateContent (validationRequest target g) (world st))
             = Resolved v
             /\ trim v <> [] /\ notes = trim v)
    /\ (forall message,
           fst (generateContent (validationRequest target g) (world st))
           = Rejected message -> notes = g)
    /\ modelCalls events = 0
    /\ connectionAttempts events = (if isDatabaseConnected st then 0 else 1)
    /\ savedRecords events
       = match persistence with
         | NotConnected => []
         | _ => [recordOf content type target (detectedSubject p) notes]
         end
    /\ isDatabaseConnected (snd r)
       = match persistence with NotConnected => false | _ => true end
    /\ (isDatabaseConnected st = true -> persistence <> NotConnected).
Proof.
  intros target r. subst r target.
  unfold finish, bind, generate, ensureDBConnection, save, ret.
  destruct (generateContent _ (world st)) as [v w1] eqn:Hv. cbn [fst snd].
  set (notes := match v with
                | Resolved validatedNotes =>
                    if truthy validatedNotes && truthy (trim validatedNotes)
                    then trim validatedNotes else g
                | Rejected _ => g
                end).
  assert (Hnotes : (notes = g
                    \/ exists v', v = Resolved v' /\ trim v' <> [] /\ notes = trim v')
                   /\ (forall message, v = Rejected message -> notes = g)).
  { subst notes. destruct v as [v'|message].
    - split; [|discriminate].
      destruct (truthy v' && truthy (trim v')) eqn:E; [|left; reflexivity].
      right. exists v'. apply andb_true_iff in E as [_ E].
      apply truthy_nonempty in E. auto.
    - split; [left|]; reflexivity. }
  destruct Hnotes as [Hn1 Hn2].
  cbn [isDatabaseConnected world trace].
  destruct (isDatabaseConnected st) eqn:Hdb;
    cbn [fst snd isDatabaseConnected world trace].
  - match goal with
    | |- context [saveNotes ?n ?w] =>
        destruct (saveNotes n w) as [[savedNote|message] w2]
    end;
      cbn [fst snd trace isDatabaseConnected];
      do 3 eexists; (split; [reflexivity|]);
      rewrite <- app_assoc; (split; [reflexivity|]);
      (split; [exact Hn1|]); (split; [exact Hn2|]);
      repeat split; try reflexivity; intros Hx; congruence.
  - destruct (connectDB w1) as [[|] w2];
      cbn [fst snd trace isDatabaseConnected world].
    + match goal with
      | |- context [saveNotes ?n ?w] =>
          destruct (saveNotes n w) as [[savedNote|message] w3]
      end;
        cbn [fst snd trace isDatabaseConnected];
        do 3 eexists; (split; [reflexivity|]);
        rewrite <- !app_assoc; (split; [reflexivity|]);
        (split; [exact Hn1|]); (split; [exact Hn2|]);
        repeat split; try reflexivity; intros Hx; congruence.
    + do 3 eexists; (split; [reflexivity|]);
        rewrite <- !app_assoc; (split; [reflexivity|]);
        (split; [exact Hn1|]); (split; [exact Hn2|]);
        repeat split; try reflexivity; intros Hx; congruence.
Qed.

(** The handler on fields that pass the first check. *)
Lemma generateNotes_present (type : jsstring) (content : Content) (st : State) :
  fieldsPresent (Some type) (Some content) = true ->
  generateNotes (Some type) (Some content) st
  = let (prepared, st1) := prepare type content st in
    match prepared with
    | None => (Status400 invalidType, st1)
    | Some p =>
        let (result, st2) := generate (notesRequest p) st1 in
        match result with
        | Resolved generatedNotes => finish type content p generatedNotes st2
        | Rejected message => (Status500 message, st2)
        end
    end.
Proof.
  intros Hpresent. unfold generateNotes, bind, ret.
  assert (Hcheck : negb (truthy type)
                   || negb (match content with
                            | Str s => truthy s
                            | Upload _ => true
                            end) = false).
  { unfold fieldsPresent in Hpresent. destruct content as [s|f].
    - apply andb_true_iff in Hpresent as [-> ->]. reflexivity.
    - rewrite Hpresent. reflexivity. }
  rewrite Hcheck.
  destruct (prepare type content st) as [[p|] st1]; [|reflexivity].
  destruct (generate (notesRequest p) st1) as [[generatedNotes|message] st2];
    reflexivity.
Qed.

Lemma generateNotes_absent (type : option jsstring) (content : option Content)
    (st : State) :
  fieldsPresent type content = false ->
  generateNotes type content st = (Status400 missingFields, st).
Proof.
  unfold fieldsPresent, generateNotes, ret.
  destruct type as [t|], content as [[s|f]|]; try reflexivity.
  - destruct (truthy t), (truthy s); simpl; (discriminate || reflexivity).
  - intros ->. reflexivity.
Qed.

(** The branch on the type yields nothing exactly for a type other
    than "text" and "audio", and then calls nothing. *)
Lemma prepare_None (type : jsstring) (content : Content) (st st1 : State) :
  prepare type content st = (None, st1) <->
  type <> lit "text" /\ type <> lit "audio" /\ st1 = st.
Proof.
  unfold prepare, bind, ret. split.
  - destruct (eqb type (lit "text")) eqn:Et.
    + destruct (textBranch content st); discriminate.
    + destruct (eqb type (lit "audio")) eqn:Ea.
      * destruct content as [s|f].
        -- destruct (transcriptBranch (Str s) st); discriminate.
        -- unfold audioFileBranch, ret. discriminate.
      * intros [= <-]. apply eqb_neq in Et, Ea. auto.
  - intros (Ht & Ha & ->). apply eqb_neq in Ht, Ha. rewrite Ht, Ha.
    reflexivity.
Qed.

Lemma modelCalls_app (a b : list Event) :
  modelCalls (a ++ b) = modelCalls a + modelCalls b.
Proof. unfold modelCalls. rewrite filter_app, length_app. reflexivity. Qed.

Lemma connectionAttempts_app (a b : list Event) :
  connectionAttempts (a ++ b) = connectionAttempts a + connectionAttempts b.
Proof.
  unfold connectionAttempts. rewrite filter_app, length_app. reflexivity.
Qed.

Lemma modelCall_events (events : list Event) :
  Forall isModelCall events ->
  savedRecords events = []
  /\ connectionAttempts events = 0
  /\ modelCalls events = List.length events.
Proof.
  induction 1 as [|e events He _ IH]; [auto|].
  destruct e as [r| |n]; try contradiction.
  destruct IH as (Hs & Hc & Hm). unfold modelCalls in *. simpl.
  rewrite Hm. auto.
Qed.

Lemma modelOnly_ret (A : Type) (a : A) : modelOnly (ret a).
Proof. intros st. exists []. simpl. rewrite app_nil_r. auto. Qed.

Lemma modelOnly_bind (A B : Type) (m : M A) (k : A -> M B) :
  modelOnly m -> (forall a, modelOnly (k a)) -> modelOnly (bind m k).
Proof.
  intros Hm Hk st. unfold bind.
  destruct (Hm st) as (e1 & Ht1 & Hf1 & Hd1).
  destruct (m st) as [a st1]. simpl in Ht1, Hd1.
  destruct (Hk a st1) as (e2 & Ht2 & Hf2 & Hd2).
  exists (e1 ++ e2). repeat split.
  - rewrite Ht2, Ht1, app_assoc. reflexivity.
  - apply Forall_app; auto.
  - congruence.
Qed.

Lemma modelOnly_generate (r : GenRequest) : modelOnly (generate r).
Proof.
  intros st. exists [EvGenerate r]. unfold generate.
  destruct (generateContent r (world st)) as [o w]. simpl.
  repeat split. repeat constructor.
Qed.

Ltac modelOnly_steps :=
  repeat match goal with
         | |- modelOnly (bind _ _) => apply modelOnly_bind; [|intros ?]
         | |- modelOnly (ret _) => apply modelOnly_ret
         | |- modelOnly (generate _) => apply modelOnly_generate
         | |- modelOnly (if ?b then _ else _) => destruct b
         | |- modelOnly (match ?o with Resolved _ => _ | Rejected _ => _ end) =>
             destruct o
         end.

Lemma modelOnly_detectLanguage (content : Content) :
  modelOnly (detectLanguage content).
Proof. destruct content; unfold detectLanguage; modelOnly_steps. Qed.

Lemma modelOnly_detectSubject (content : Content) :
  modelOnly (detectSubject content).
Proof. destruct content; unfold detectSubject; modelOnly_steps. Qed.

(** The detection phase only talks to the model. *)
Lemma modelOnly_prepare (type : jsstring) (content : Content) :
  modelOnly (prepare type content).
Proof.
  unfold prepare, textBranch, transcriptBranch, audioFileBranch.
  destruct (eqb type (lit "text")); [|destruct (eqb type (lit "audio"))];
    [| destruct content |];
    repeat first [ apply modelOnly_detectLanguage
                 | apply modelOnly_detectSubject
                 | progress modelOnly_steps ].
Qed.

(** The three ways a run on present fields can go. *)
Lemma run_cases (type : jsstring) (content : Content) (st : State) :
  fieldsPresent (Some type) (Some content) = true ->
  let run := generateNotes (Some type) (Some content) st in
  (prepare type content st = (None, st) /\ run = (Status400 invalidType, st))
  \/ exists p st1 e1,
       prepare type content st = (Some p, st1)
       /\ trace st1 = trace st ++ e1
       /\ Forall isModelCall e1
       /\ isDatabaseConnected st1 = isDatabaseConnected st
       /\ let after w :=
            {| world := w;
               isDatabaseConnected := isDatabaseConnected st1;
               trace := trace st1 ++ [EvGenerate (notesRequest p)] |} in
          (exists message w,
              generateContent (notesRequest p) (world st1)
              = (Rejected message, w)
              /\ run = (Status500 message, after w))
          \/ (exists g w,
                 generateContent (notesRequest p) (world st1) = (Resolved g, w)
                 /\ run = finish type content p g (after w)).
Proof.
  intros Hpresent run. subst run. rewrite (generateNotes_present _ _ _ Hpresent).
  destruct (modelOnly_prepare type content st) as (e1 & Ht & Hf & Hd).
  destruct (prepare type content st) as [[p|] st1] eqn:Hprep.
  - right. exists p, st1, e1. cbn [snd] in Ht, Hd.
    repeat split; try assumption. unfold generate.
    destruct (generateContent (notesRequest p) (world st1))
      as [[g|message] w].
    + right. exists g, w. auto.
    + left. exists message, w. auto.
  - left. apply prepare_None in Hprep as (_ & _ & ->). auto.
Qed.

Lemma success_present (type : option jsstring) (content : option Content)
    (st st' : State) (body : SuccessBody) :
  generateNotes type content st = (Status200 body, st') ->
  fieldsPresent type content = true.
Proof.
  intros Hrun. destruct (fieldsPresent type content) eqn:Hp; [reflexivity|].
  rewrite (generateNotes_absent _ _ _ Hp) in Hrun. discriminate.
Qed.

(** A successful run, whole: the detection, the generation, the
    correction pass and the persistence. *)
Lemma success_shape (type : jsstring) (content : Content) (st st' : State)
    (body : SuccessBody) :
  generateNotes (Some type) (Some content) st = (Status200 body, st') ->
  exists p st1 e1 g notes events,
    prepare type content st = (Some p, st1)
    /\ trace st1 = trace st ++ e1
    /\ Forall isModelCall e1
    /\ isDatabaseConnected st1 = isDatabaseConnected st
    /\ fst (generateContent (notesRequest p) (world st1)) = Resolved g
    /\ body = {| res_input_type := type;
                 res_model_used := GEMINI_MODEL;
                 res_detected_language := targetLanguageOf (detectedLanguage p);
                 res_detected_subject := detectedSubject p;
                 res_generated_notes := notes;
                 res_persistence := res_persistence body |}
    /\ (g <> [] -> notes <> [])
    /\ trace st'
       = trace st1
         ++ EvGenerate (notesRequest p)
            :: EvGenerate
                 (validationRequest (targetLanguageOf (detectedLanguage p)) g)
            :: events
    /\ modelCalls events = 0
    /\ connectionAttempts events = (if isDatabaseConnected st then 0 else 1)
    /\ savedRecords events
       = match res_persistence body with
         | NotConnected => []
         | _ => [recordOf content type
                   (targetLanguageOf (detectedLanguage p))
                   (detectedSubject p) notes]
         end
    /\ isDatabaseConnected st'
       = match res_persistence body with NotConnected => false | _ => true end.
Proof.
  intros Hrun. pose proof (success_present _ _ _ _ _ Hrun) as Hpresent.
  destruct (run_cases type content st Hpresent)
    as [[_ H400]|(p & st1 & e1 & Hprep & Ht1 & Hf1 & Hd1 & Hgen)].
  { rewrite Hrun in H400. discriminate. }
  cbv zeta in Hgen.
  destruct Hgen as [(message & w & _ & H500)|(g & w & Hcall & Hfin)].
  { rewrite Hrun in H500. discriminate. }
  rewrite Hrun in Hfin.
  match type of Hfin with
  | _ = finish _ _ _ _ ?s =>
      destruct (finish_outcome type content p g s)
        as (notes & persistence & events & Hbody & Htr & Hnotes & _
            & Hm & Hc & Hs & Hdb & _)
  end.
  rewrite <- Hfin in Hbody, Htr, Hdb. cbn [fst snd] in Hbody, Htr, Hdb.
  cbn [trace isDatabaseConnected] in Htr, Hc.
  injection Hbody as ->. cbn [res_persistence].
  exists p, st1, e1, g, notes, events.
  repeat split; try assumption.
  - rewrite Hcall. reflexivity.
  - intros Hg. destruct Hnotes as [->|(v & _ & Hv & ->)]; assumption.
  - rewrite Htr, <- app_assoc. reflexivity.
  - rewrite Hc, Hd1. reflexivity.
Qed.

(** X1. A request whose type or content is missing or empty, or whose
    type is neither "text" nor "audio", is answered with status 400, and
    the handler has then called nothing: the state is as before. *)
Theorem invalid_input_rejected (type : option jsstring)
    (content : option Content) (st : State) :
  fieldsPresent type content = false
  \/ (exists t, type = Some t /\ t <> lit "text" /\ t <> lit "audio") ->
  exists error, generateNotes type content st = (Status400 error, st).
Proof.
  intros Hbad. destruct (fieldsPresent type content) eqn:Hp.
  - destruct Hbad as [Hbad|(t & -> & Ht & Ha)]; [discriminate|].
    destruct content as [c|]; [|discriminate].
    exists invalidType. rewrite (generateNotes_present _ _ _ Hp).
    assert (Hprep : prepare t c st = (None, st)) by (apply prepare_None; auto).
    rewrite Hprep. reflexivity.
  - exists missingFields. apply generateNotes_absent. exact Hp.
Qed.

(** X2. Status 400 is given for those requests only, and never after
    an external call. *)
Theorem bad_request_has_no_effect (type : option jsstring)
    (content : option Content) (st st' : State) (error : jsstring) :
  generateNotes type content st = (Status400 error, st') ->
  st' = st
  /\ ((fieldsPresent type content = false /\ error = missingFields)
      \/ (exists t, type = Some t /\ t <> lit "text" /\ t <> lit "audio"
                    /\ error = invalidType)).
Proof.
  intros Hrun. destruct (fieldsPresent type content) eqn:Hp.
  - destruct type as [t|]; [|discriminate].
    destruct content as [c|]; [|destruct t; discriminate].
    destruct (run_cases t c st Hp)
      as [[Hprep H400]|(p & st1 & e1 & _ & _ & _ & _ & Hgen)].
    + rewrite Hrun in H400. injection H400 as -> ->.
      apply prepare_None in Hprep as (Ht & Ha & _).
      split; [reflexivity|]. right. exists t. auto.
    + cbv zeta in Hgen.
      destruct Hgen as [(message & w & _ & H500)|(g & w & _ & Hfin)].
      * rewrite Hrun in H500. discriminate.
      * rewrite Hrun in Hfin.
        match type of Hfin with
        | _ = finish _ _ _ _ ?s =>
            destruct (finish_outcome t c p g s) as (n & ps & ev & Hbody & _)
        end.
        rewrite <- Hfin in Hbody. discriminate.
  - rewrite (generateNotes_absent _ _ _ Hp) in Hrun.
    injection Hrun as <- <-. auto.
Qed.

(** X3. For a content that is a string or an uploaded file, an answer
    500 of the handler means that the generation request, and it alone,
    has failed: the detail is its message, the run has only called the
    model, and so nothing was saved and no connection attempted. *)
Theorem failed_generation_saves_nothing (type : option jsstring)
    (content : option Content) (st st' : State) (details : jsstring) :
  generateNotes type content st = (Status500 details, st') ->
  exists t c p st1 events,
    type = Some t /\ content = Some c
    /\ prepare t c st = (Some p, st1)
    /\ fst (generateContent (notesRequest p) (world st1)) = Rejected details
    /\ trace st' = trace st ++ events
    /\ Forall isModelCall events
    /\ savedRecords events = []
    /\ isDatabaseConnected st' = isDatabaseConnected st.
Proof.
  intros Hrun. destruct (fieldsPresent type content) eqn:Hp.
  2: { rewrite (generateNotes_absent _ _ _ Hp) in Hrun. discriminate. }
  destruct type as [t|]; [|discriminate].
  destruct content as [c|]; [|destruct t; discriminate].
  destruct (run_cases t c st Hp)
    as [[_ H400]|(p & st1 & e1 & Hprep & Ht1 & Hf1 & Hd1 & Hgen)].
  { rewrite Hrun in H400. discriminate. }
  cbv zeta in Hgen.
  destruct Hgen as [(message & w & Hcall & H500)|(g & w & _ & Hfin)].
  - rewrite Hrun in H500. injection H500 as -> ->.
    assert (Hall : Forall isModelCall (e1 ++ [EvGenerate (notesRequest p)])).
    { apply Forall_app. split; [assumption | repeat constructor]. }
    exists t, c, p, st1, (e1 ++ [EvGenerate (notesRequest p)]).
    repeat split; try assumption.
    + rewrite Hcall. reflexivity.
    + cbn [trace]. rewrite Ht1, app_assoc. reflexivity.
    + apply (modelCall_events _ Hall).
  - rewrite Hrun in Hfin.
    match type of Hfin with
    | _ = finish _ _ _ _ ?s =>
        destruct (finish_outcome t c p g s) as (n & ps & ev & Hbody & _)
    end.
    rewrite <- Hfin in Hbody. discriminate.
Qed.

(** X4. Once the generation request has resolved, the answer is a
    success whatever the correction pass and the database do, and it
    carries notes unless the model generated none. *)
Theorem generated_notes_always_answered (type : jsstring) (content : Content)
    (st st1 : State) (p : Prepared) (g : jsstring) :
  fieldsPresent (Some type) (Some content) = true ->
  prepare type content st = (Some p, st1) ->
  fst (generateContent (notesRequest p) (world st1)) = Resolved g ->
  exists body,
    fst (generateNotes (Some type) (Some content) st) = Status200 body
    /\ (g <> [] -> res_generated_notes body <> []).
Proof.
  intros Hp Hprep Hcall.
  destruct (run_cases type content st Hp)
    as [[Hnone _]|(p' & st1' & e1 & Hprep' & _ & _ & _ & Hgen)].
  { rewrite Hprep in Hnone. discriminate. }
  rewrite Hprep in Hprep'. injection Hprep' as <- <-. cbv zeta in Hgen.
  destruct Hgen as [(message & w & Hrej & _)|(g' & w & Hres & Hfin)].
  { rewrite Hrej in Hcall. discriminate. }
  rewrite Hres in Hcall. injection Hcall as ->. rewrite Hfin.
  match goal with
  | |- context [finish ?t ?c ?q ?n ?s] =>
      destruct (finish_outcome t c q n s)
        as (notes & ps & ev & Hbody & _ & Hnotes & _)
  end.
  rewrite Hbody. eexists. split; [reflexivity|]. cbn [res_generated_notes].
  intros Hg. destruct Hnotes as [->|(v & _ & Hv & ->)]; assumption.
Qed.

(** X5. A correction request that is rejected leaves the generated
    notes as they were. *)
Theorem rejected_correction_keeps_notes (type : jsstring) (content : Content)
    (p : Prepared) (g : jsstring) (st : State) (message : jsstring) :
  fst (generateContent
         (validationRequest (targetLanguageOf (detectedLanguage p)) g)
         (world st))
  = Rejected message ->
  exists body,
    fst (finish type content p g st) = Status200 body
    /\ res_generated_notes body = g.
Proof.
  intros Hrej.
  destruct (finish_outcome type content p g st)
    as (notes & ps & ev & Hbody & _ & _ & Hkeep & _).
  rewrite Hbody. eexists. split; [reflexivity|].
  exact (Hkeep message Hrej).
Qed.

(** X6. A successful run saves at most one record, the one whose
    fields are those of the answer, and none when the answer says that
    the database is not connected. *)
Theorem stored_record_matches_answer (type : jsstring) (content : Content)
    (st st' : State) (body : SuccessBody) :
  generateNotes (Some type) (Some content) st = (Status200 body, st') ->
  exists events,
    trace st' = trace st ++ events
    /\ savedRecords events
       = match res_persistence body with
         | NotConnected => []
         | _ => [recordOf content (res_input_type body)
                   (res_detected_language body) (res_detected_subject body)
                   (res_generated_notes body)]
         end.
Proof.
  intros Hrun.
  destruct (success_shape _ _ _ _ _ Hrun)
    as (p & st1 & e1 & g & notes & events & _ & Ht1 & Hf1 & _ & _ & Hbody
        & _ & Ht & _ & _ & Hsaved & _).
  exists (e1 ++ EvGenerate (notesRequest p)
             :: EvGenerate
                  (validationRequest (targetLanguageOf (detectedLanguage p)) g)
             :: events).
  split.
  - rewrite Ht, Ht1, <- app_assoc. reflexivity.
  - rewrite savedRecords_app.
    destruct (modelCall_events _ Hf1) as (-> & _). cbn [app].
    change (savedRecords (?a :: ?b :: events)) with (savedRecords events).
    rewrite Hsaved, Hbody. reflexivity.
Qed.

Lemma detectSubject_label (content : Content) (st st1 : State)
    (r : option jsstring) :
  detectSubject content st = (r, st1) ->
  exists label, r = Some label /\ In label allowedSubjects.
Proof.
  destruct content as [s|f]; unfold detectSubject, bind, generate, ret.
  - destruct (generateContent _ (world st)) as [[responseText|message] w];
      intros [= <- _].
    + apply classify_allowed.
    + exists (lit "General"). split; [reflexivity | apply General_allowed].
  - destruct (generateContent _ (world st)) as [o w]. intros [= <- _].
    exists (lit "General"). split; [reflexivity | apply General_allowed].
Qed.

(** Whatever the branch, the subject it leaves is a label of the
    taxonomy. *)
Lemma prepare_subject (type : jsstring) (content : Content) (st st1 : State)
    (p : Prepared) :
  prepare type content st = (Some p, st1) ->
  exists label, detectedSubject p = Some label /\ In label allowedSubjects.
Proof.
  unfold prepare, textBranch, transcriptBranch, audioFileBranch, bind, ret.
  destruct (eqb type (lit "text")).
  - destruct (detectLanguage content st) as [l1 st2].
    destruct (detectSubject content st2) as [s st3] eqn:Hs.
    apply detectSubject_label in Hs.
    destruct (suspicious l1); [destruct (detectLanguage content st3)|];
      intros [= <- _]; exact Hs.
  - destruct (eqb type (lit "audio")); [|discriminate].
    destruct content as [s|f].
    + destruct (detectLanguage (Str s) st) as [l1 st2].
      destruct (detectSubject (Str s) st2) as [r st3] eqn:Hs.
      apply detectSubject_label in Hs. intros [= <- _]; exact Hs.
    + intros [= <- _]. exists (lit "General").
      split; [reflexivity | apply General_allowed].
Qed.

(** X7. The subject of every successful answer, and of every record
    saved with it, is one of the fifteen labels of the taxonomy,
    whatever the input type. *)
Theorem answered_subject_in_taxonomy (type : jsstring) (content : Content)
    (st st' : State) (body : SuccessBody) :
  generateNotes (Some type) (Some content) st = (Status200 body, st') ->
  exists label,
    res_detected_subject body = Some label
    /\ In label allowedSubjects
    /\ exists events,
         trace st' = trace st ++ events
         /\ Forall (fun n => detected_subject n = Some label)
              (savedRecords events).
Proof.
  intros Hrun.
  destruct (success_shape _ _ _ _ _ Hrun)
    as (p & st1 & e1 & g & notes & events & Hprep & Ht1 & Hf1 & _ & _ & Hbody
        & _ & Ht & _ & _ & Hsaved & _).
  destruct (prepare_subject _ _ _ _ _ Hprep) as (label & Hlabel & Hin).
  exists label. rewrite Hbody. cbn [res_detected_subject].
  repeat split; try assumption.
  exists (e1 ++ EvGenerate (notesRequest p)
             :: EvGenerate
                  (validationRequest (targetLanguageOf (detectedLanguage p)) g)
             :: events).
  split.
  - rewrite Ht, Ht1, <- app_assoc. reflexivity.
  - rewrite savedRecords_app.
    destruct (modelCall_events _ Hf1) as (-> & _). cbn [app].
    change (savedRecords (?a :: ?b :: events)) with (savedRecords events).
    rewrite Hsaved. destruct (res_persistence body); repeat constructor;
      exact Hlabel.
Qed.

Lemma run_connection (type : option jsstring)
    (content : option Content) (st : State) :
  let run := generateNotes type content st in
  exists events,
    trace (snd run) = trace st ++ events
    /\ connectionAttempts events <= 1
    /\ (isDatabaseConnected st = true ->
        connectionAttempts events = 0
        /\ isDatabaseConnected (snd run) = true).
Proof.
  intros run. subst run.
  assert (Hnone : forall events : list Event,
             Forall isModelCall events ->
             connectionAttempts events <= 1
             /\ (isDatabaseConnected st = true ->
                 connectionAttempts events = 0
                 /\ isDatabaseConnected st = true)).
  { intros events Hf. destruct (modelCall_events _ Hf) as (_ & -> & _).
    split; [lia | auto]. }
  destruct (fieldsPresent type content) eqn:Hp.
  2: { rewrite (generateNotes_absent _ _ _ Hp). exists []. cbn [snd].
       rewrite app_nil_r. split; [reflexivity | apply Hnone; constructor]. }
  destruct type as [t|]; [|discriminate].
  destruct content as [c|]; [|destruct t; discriminate].
  destruct (run_cases t c st Hp)
    as [[_ ->]|(p & st1 & e1 & _ & Ht1 & Hf1 & Hd1 & Hgen)].
  { exists []. cbn [snd]. rewrite app_nil_r.
    split; [reflexivity | apply Hnone; constructor]. }
  cbv zeta in Hgen.
  destruct Hgen as [(message & w & _ & ->)|(g & w & _ & ->)].
  - exists (e1 ++ [EvGenerate (notesRequest p)]). cbn [snd trace isDatabaseConnected].
    rewrite Ht1, app_assoc, Hd1. split; [reflexivity|].
    apply Hnone. apply Forall_app. split; [assumption | repeat constructor].
  - match goal with
    | |- context [finish ?a ?b ?q ?n ?s] =>
        destruct (finish_outcome a b q n s)
          as (notes & ps & ev & Hbody & Htr & _ & _ & Hm & Hc & Hs & Hdb & Hps)
    end.
    cbn [trace isDatabaseConnected] in Htr, Hc, Hps.
    exists (e1 ++ EvGenerate (notesRequest p)
               :: EvGenerate
                    (validationRequest (targetLanguageOf (detectedLanguage p)) g)
               :: ev).
    split; [rewrite Htr, Ht1, <- !app_assoc; reflexivity|].
    rewrite connectionAttempts_app.
    destruct (modelCall_events _ Hf1) as (_ & -> & _).
    change (connectionAttempts (?a :: ?b :: ev)) with (connectionAttempts ev).
    rewrite Hc. split.
    + destruct (isDatabaseConnected st1); simpl; lia.
    + intros Hconn. rewrite <- Hd1 in Hconn. split.
      * rewrite Hconn. reflexivity.
      * rewrite Hdb. specialize (Hps Hconn). destruct ps; congruence.
Qed.

(** X8. A request attempts to connect to the database at most once,
    and not at all when the process is connected already, in which case
    it stays connected. *)
Theorem connection_attempted_at_most_once (type : option jsstring)
    (content : option Content) (st : State) :
  let run := generateNotes type content st in
  exists events,
    trace (snd run) = trace st ++ events
    /\ connectionAttempts events <= 1
    /\ (isDatabaseConnected st = true ->
        connectionAttempts events = 0
        /\ isDatabaseConnected (snd run) = true).
Proof. exact (run_connection type content st). Qed.

(** X9. The answer tells the state of the connection it leaves: after
    an answer that reports the database as not connected the flag is
    down, so that the next request tries again; after any other
    successful answer the flag is up, and whatever request comes next
    makes no connection attempt. *)
Theorem connection_survives_requests (type : jsstring) (content : Content)
    (st st' : State) (body : SuccessBody) :
  generateNotes (Some type) (Some content) st = (Status200 body, st') ->
  (res_persistence body = NotConnected -> isDatabaseConnected st' = false)
  /\ (res_persistence body <> NotConnected ->
      forall type2 content2,
        let next := generateNotes type2 content2 st' in
        exists events,
          trace (snd next) = trace st' ++ events
          /\ connectionAttempts events = 0
          /\ isDatabaseConnected (snd next) = true).
Proof.
  intros Hrun.
  destruct (success_shape _ _ _ _ _ Hrun)
    as (p & st1 & e1 & g & notes & events & _ & _ & _ & _ & _ & _
        & _ & _ & _ & _ & _ & Hdb).
  split.
  - intros Hps. rewrite Hdb, Hps. reflexivity.
  - intros Hps type2 content2 next. subst next.
    assert (Hup : isDatabaseConnected st' = true).
    { rewrite Hdb. destruct (res_persistence body); congruence. }
    destruct (run_connection type2 content2 st') as (ev & Htr & _ & Hconn).
    exists ev. destruct (Hconn Hup). auto.
Qed.

(** The requests of the detection phase on a string content. *)
Lemma prepare_string_trace (type s : jsstring) (st st1 : State) (p : Prepared) :
  prepare type (Str s) st = (Some p, st1) ->
  trace st1
  = trace st
    ++ [EvGenerate (languageRequest s);
        EvGenerate (subjectRequest (snippetOf s))]
    ++ (if eqb type (lit "text")
           && suspicious (fst (detectLanguage (Str s) st))
        then [EvGenerate (languageRequest s)] else []).
Proof.
  pose proof (detectLanguage_trace s st) as Hl.
  pose proof (detectSubject_trace s (snd (detectLanguage (Str s) st))) as Hs.
  rewrite Hl in Hs.
  unfold prepare, bind, ret. destruct (eqb type (lit "text")); cbn [andb].
  - destruct (suspicious (fst (detectLanguage (Str s) st))) eqn:Hsusp.
    + pose proof (textBranch_retry_trace s st Hsusp) as Htr.
      destruct (textBranch (Str s) st) as [q st2]. intros [= _ <-].
      exact Htr.
    + rewrite (textBranch_no_retry (Str s) st Hsusp). intros [= _ <-].
      rewrite app_nil_r. etransitivity; [exact Hs|].
      rewrite <- app_assoc. reflexivity.
  - destruct (eqb type (lit "audio")); [|discriminate].
    rewrite transcriptBranch_run. intros [= _ <-].
    rewrite app_nil_r. etransitivity; [exact Hs|].
    rewrite <- app_assoc. reflexivity.
Qed.

(** X10. The model calls of a successful run on a string content, in
    order: language detection, subject detection, the second language
    detection of the text type when the first result is suspicious,
    generation, correction pass; four calls, or five with the retry. *)
Theorem model_calls_in_order (type s : jsstring) (st st' : State)
    (body : SuccessBody) :
  generateNotes (Some type) (Some (Str s)) st = (Status200 body, st') ->
  let retried :=
    eqb type (lit "text") && suspicious (fst (detectLanguage (Str s) st)) in
  exists p g events,
    trace st'
    = trace st
      ++ [EvGenerate (languageRequest s);
          EvGenerate (subjectRequest (snippetOf s))]
      ++ (if retried then [EvGenerate (languageRequest s)] else [])
      ++ [EvGenerate (notesRequest p);
          EvGenerate
            (validationRequest (targetLanguageOf (detectedLanguage p)) g)]
      ++ events
    /\ modelCalls events = 0
    /\ modelCalls
         ([EvGenerate (languageRequest s);
           EvGenerate (subjectRequest (snippetOf s))]
          ++ (if retried then [EvGenerate (languageRequest s)] else [])
          ++ [EvGenerate (notesRequest p);
              EvGenerate
                (validationRequest (targetLanguageOf (detectedLanguage p)) g)]
          ++ events)
       = if retried then 5 else 4.
Proof.
  intros Hrun retried.
  destruct (success_shape _ _ _ _ _ Hrun)
    as (p & st1 & e1 & g & notes & events & Hprep & _ & _ & _ & _ & _
        & _ & Ht & Hm & _).
  apply prepare_string_trace in Hprep. fold retried in Hprep.
  exists p, g, events. repeat split.
  - rewrite Ht, Hprep, <- !app_assoc. reflexivity.
  - exact Hm.
  - destruct retried; cbn [app]; unfold modelCalls in *; simpl;
      rewrite Hm; reflexivity.
Qed.

(** X11. An uploaded audio file is not put through the detectors: the
    first call of the run is the generation request, which carries the
    prompt with the file's name and type and the file's data inline;
    the answer gives "English" and "General". *)
Theorem audio_file_skips_detection (f : UploadedFile) (st st' : State)
    (body : SuccessBody) :
  generateNotes (Some (lit "audio")) (Some (Upload f)) st
  = (Status200 body, st') ->
  res_detected_language body = lit "English"
  /\ res_detected_subject body = Some (lit "General")
  /\ exists request g events,
       trace st'
       = trace st
         ++ EvGenerate request
            :: EvGenerate (validationRequest (lit "English") g) :: events
       /\ parts request
          = [TextPart (audioFilePrompt f);
             InlineData (mimetype f) (base64 (buffer f))]
       /\ modelCalls events = 0.
Proof.
  intros Hrun.
  destruct (success_shape _ _ _ _ _ Hrun)
    as (p & st1 & e1 & g & notes & events & Hprep & _ & _ & _ & _ & Hbody
        & _ & Ht & Hm & _).
  unfold prepare, audioFileBranch, bind, ret in Hprep.
  change (eqb (lit "audio") (lit "text")) with false in Hprep.
  change (eqb (lit "audio") (lit "audio")) with true in Hprep.
  cbv iota in Hprep. injection Hprep as <- <-.
  rewrite Hbody. cbn [res_detected_language res_detected_subject].
  repeat split. eexists _, g, events. split; [exact Ht|]. split; [reflexivity|].
  exact Hm.
Qed.

Lemma prepare_text_file (f : UploadedFile) (st : State) :
  prepare (lit "text") (Upload f) st
  = (Some {| userPrompt := textPrompt (Upload f) (lit "unknown")
                             (Some (lit "General"));
             audioFile := None;
             detectedLanguage := lit "unknown";
             detectedSubject := Some (lit "General") |},
     {| world := snd (generateContent (subjectRequest []) (world st));
        isDatabaseConnected := isDatabaseConnected st;
        trace := trace st ++ [EvGenerate (subjectRequest [])] |}).
Proof.
  unfold prepare, textBranch, detectLanguage, detectSubject, bind, ret, generate.
  change (eqb (lit "text") (lit "text")) with true. cbv beta iota.
  destruct (generateContent (subjectRequest []) (world st)) as [o w].
  reflexivity.
Qed.

(** X12. When the type is "text" and the content is an uploaded file
    object, the detectors fail on it inside their [try] blocks: the
    language detection calls nothing, twice, the subject detection
    sends an empty snippet, and the answer gives "English" and
    "General"; the file object is printed into the generation prompt. *)
Theorem text_type_with_file (f : UploadedFile) (st st' : State)
    (body : SuccessBody) :
  generateNotes (Some (lit "text")) (Some (Upload f)) st
  = (Status200 body, st') ->
  res_detected_language body = lit "English"
  /\ res_detected_subject body = Some (lit "General")
  /\ exists request g events,
       trace st'
       = trace st
         ++ EvGenerate (subjectRequest [])
            :: EvGenerate request
            :: EvGenerate (validationRequest (lit "English") g) :: events
       /\ parts request
          = [TextPart (textPrompt (Upload f) (lit "unknown")
                         (Some (lit "General")))]
       /\ modelCalls events = 0.
Proof.
  intros Hrun.
  destruct (success_shape _ _ _ _ _ Hrun)
    as (p & st1 & e1 & g & notes & events & Hprep & _ & _ & _ & _ & Hbody
        & _ & Ht & Hm & _).
  rewrite prepare_text_file in Hprep. injection Hprep as <- <-.
  rewrite Hbody. cbn [res_detected_language res_detected_subject].
  repeat split. eexists _, g, events. cbn [trace] in Ht.
  split; [rewrite Ht, <- app_assoc; reflexivity|]. split; [reflexivity|].
  exact Hm.
Qed.

End HandlerFacts.

(** ** Runs of the handler on the scripted host *)

Lemma invalid_input_rejected_witness :
  exists error,
    generateNotes (Some (lit "video")) (Some (Str (lit "hola"))) (start [])
    = (Status400 error, start []).
Proof.
  apply invalid_input_rejected. right. exists (lit "video").
  repeat split; apply eqb_neq; reflexivity.
Defined.

Lemma bad_request_has_no_effect_witness :
  start [] = start []
  /\ ((fieldsPresent (Some (lit "text")) (Some (Str [])) = false
       /\ missingFields = missingFields)
      \/ (exists t, Some (lit "text") = Some t /\ t <> lit "text"
                    /\ t <> lit "audio" /\ missingFields = invalidType)).
Proof.
  apply (bad_request_has_no_effect (Some (lit "text")) (Some (Str []))
           (start []) (start []) missingFields).
  reflexivity.
Defined.

Lemma failed_generation_saves_nothing_witness :
  exists st',
    generateNotes (Some (lit "text")) (Some (Str (lit "hola")))
      (start [Resolved (lit "Spanish"); Resolved (lit "History");
              Rejected (lit "quota")])
    = (Status500 (lit "quota"), st')
    /\ isDatabaseConnected st' = false.
Proof.
  eexists. split; [vm_compute; reflexivity|].
  match goal with
  | |- isDatabaseConnected ?s = _ =>
      destruct (failed_generation_saves_nothing
                  (Some (lit "text")) (Some (Str (lit "hola")))
                  (start [Resolved (lit "Spanish"); Resolved (lit "History");
                          Rejected (lit "quota")])
                  s (lit "quota"))
        as (t & c & p & st1 & events & _ & _ & _ & _ & _ & _ & _ & Hdb)
  end.
  - vm_compute. reflexivity.
  - exact Hdb.
Defined.

Lemma generated_notes_always_answered_witness :
  exists body,
    fst (generateNotes (Some (lit "text")) (Some (Str (lit "hola")))
           (start [Resolved (lit "Spanish"); Resolved (lit "History");
                   Resolved (lit "notas"); Rejected (lit "quota")]))
    = Status200 body
    /\ (lit "notas" <> [] -> res_generated_notes body <> []).
Proof.
  eapply generated_notes_always_answered.
  - reflexivity.
  - vm_compute. reflexivity.
  - vm_compute. reflexivity.
Defined.

Lemma rejected_correction_keeps_notes_witness :
  exists body,
    fst (finish (lit "text") (Str (lit "hola"))
           {| userPrompt := lit "prompt"; audioFile := None;
              detectedLanguage := lit "Spanish";
              detectedSubject := Some (lit "History") |}
           (lit "notas") (start [Rejected (lit "quota")]))
    = Status200 body
    /\ res_generated_notes body = lit "notas".
Proof.
  apply (rejected_correction_keeps_notes _ _ _ _ _ (lit "quota")).
  reflexivity.
Defined.

Lemma stored_record_matches_answer_witness :
  let st := startOnline [Resolved (lit "Spanish"); Resolved (lit "History");
                         Resolved (lit "notas"); Resolved (lit "notas")] in
  exists body st',
    generateNotes (Some (lit "text")) (Some (Str (lit "hola"))) st
    = (Status200 body, st')
    /\ exists events,
         trace st' = trace st ++ events
         /\ savedRecords events
            = match res_persistence body with
              | NotConnected => []
              | _ => [recordOf (Str (lit "hola")) (res_input_type body)
                        (res_detected_language body)
                        (res_detected_subject body)
                        (res_generated_notes body)]
              end.
Proof.
  intros st. eexists. eexists. split; [vm_compute; reflexivity|].
  apply (stored_record_matches_answer (lit "text") (Str (lit "hola")) st).
  vm_compute. reflexivity.
Defined.

Lemma answered_subject_in_taxonomy_witness :
  exists body st',
    generateNotes (Some (lit "audio")) (Some (Str (lit "a theorem and a proof")))
      (startOnline [Resolved (lit "English"); Resolved (lit "no idea");
                    Resolved (lit "notes"); Resolved (lit "notes")])
    = (Status200 body, st')
    /\ exists label,
         res_detected_subject body = Some label /\ In label allowedSubjects.
Proof.
  eexists. eexists. split; [vm_compute; reflexivity|].
  edestruct (answered_subject_in_taxonomy (lit "audio")
               (Str (lit "a theorem and a proof"))
               (startOnline [Resolved (lit "English"); Resolved (lit "no idea");
                             Resolved (lit "notes"); Resolved (lit "notes")]))
    as (label & Hlabel & Hin & _).
  - vm_compute. reflexivity.
  - exists label. split; [exact Hlabel | exact Hin].
Defined.

Lemma connection_attempted_at_most_once_witness :
  let st := {| world := {| answers := [Resolved (lit "notes"); Resolved []];
                           dbUp := true |};
               isDatabaseConnected := true;
               trace := [] |} in
  let run := generateNotes (Some (lit "audio"))
               (Some (Upload {| originalname := lit "a.wav";
                                mimetype := lit "audio/wav";
                                buffer := [82; 73; 70; 70]%N;
                                size := 4%N |})) st in
  exists events,
    trace (snd run) = events
    /\ connectionAttempts events = 0
    /\ isDatabaseConnected (snd run) = true.
Proof.
  intros st run.
  destruct (connection_attempted_at_most_once
              (Some (lit "audio"))
              (Some (Upload {| originalname := lit "a.wav";
                               mimetype := lit "audio/wav";
                               buffer := [82; 73; 70; 70]%N;
                               size := 4%N |})) st)
    as (events & Htr & _ & Hconn).
  exists events. destruct (Hconn eq_refl) as [H0 Hup].
  split; [exact Htr | split; [exact H0 | exact Hup]].
Defined.

Lemma connection_survives_requests_witness :
  let st := startOnline [Resolved (lit "Spanish"); Resolved (lit "History");
                         Resolved (lit "notas"); Resolved (lit "notas")] in
  exists body st',
    generateNotes (Some (lit "text")) (Some (Str (lit "hola"))) st
    = (Status200 body, st')
    /\ res_persistence body <> NotConnected
    /\ exists events,
         trace (snd (generateNotes (Some (lit "audio"))
                       (Some (Str (lit "otra"))) st'))
         = trace st' ++ events
         /\ connectionAttempts events = 0.
Proof.
  intros st.
  assert (Hex : exists body st',
             generateNotes (Some (lit "text")) (Some (Str (lit "hola"))) st
             = (Status200 body, st')
             /\ res_persistence body <> NotConnected).
  { eexists. eexists. split; [vm_compute; reflexivity|]. discriminate. }
  destruct Hex as (body & st' & Hrun & Hps). exists body, st'.
  split; [exact Hrun|]. split; [exact Hps|].
  destruct (connection_survives_requests _ _ _ _ _ Hrun) as [_ Hnext].
  destruct (Hnext Hps (Some (lit "audio")) (Some (Str (lit "otra"))))
    as (events & Htr & H0 & _).
  exists events. split; [exact Htr | exact H0].
Defined.

Lemma model_calls_in_order_witness :
  let st := start [Resolved (lit "English"); Resolved (lit "History");
                   Resolved (lit "Spanish"); Resolved (lit "notas");
                   Resolved (lit "notas")] in
  exists body st',
    generateNotes (Some (lit "text")) (Some (Str (lit "hola"))) st
    = (Status200 body, st')
    /\ exists events,
         trace st' = trace st ++ events /\ modelCalls events = 5.
Proof.
  intros st.
  assert (Hex : exists body st',
             generateNotes (Some (lit "text")) (Some (Str (lit "hola"))) st
             = (Status200 body, st')).
  { eexists. eexists. vm_compute. reflexivity. }
  destruct Hex as (body & st' & Hrun). exists body, st'.
  split; [exact Hrun|].
  destruct (model_calls_in_order _ _ _ _ _ Hrun)
    as (p & g & events & Htr & _ & Hcount).
  assert (Hretry : eqb (lit "text") (lit "text")
                   && suspicious (fst (detectLanguage (Str (lit "hola")) st))
                   = true) by (vm_compute; reflexivity).
  rewrite Hretry in Htr, Hcount.
  eexists. split; [exact Htr | exact Hcount].
Defined.

Lemma audio_file_skips_detection_witness :
  let file := {| originalname := lit "a.wav"; mimetype := lit "audio/wav";
                 buffer := [82; 73; 70; 70]%N; size := 4%N |} in
  let st := start [Resolved (lit "notes"); Resolved (lit "notes")] in
  exists body st',
    generateNotes (Some (lit "audio")) (Some (Upload file)) st
    = (Status200 body, st')
    /\ res_detected_language body = lit "English"
    /\ res_detected_subject body = Some (lit "General").
Proof.
  intros file st.
  assert (Hex : exists body st',
             generateNotes (Some (lit "audio")) (Some (Upload file)) st
             = (Status200 body, st')).
  { eexists. eexists. vm_compute. reflexivity. }
  destruct Hex as (body & st' & Hrun). exists body, st'.
  split; [exact Hrun|].
  destruct (audio_file_skips_detection _ _ _ _ Hrun) as (Hl & Hs & _).
  split; [exact Hl | exact Hs].
Defined.

Lemma text_type_with_file_witness :
  let file := {| originalname := lit "a.wav"; mimetype := lit "audio/wav";
                 buffer := [82; 73; 70; 70]%N; size := 4%N |} in
  let st := start [Resolved (lit "Music"); Resolved (lit "notes");
                   Resolved (lit "notes")] in
  exists body st',
    generateNotes (Some (lit "text")) (Some (Upload file)) st
    = (Status200 body, st')
    /\ res_detected_language body = lit "English"
    /\ res_detected_subject body = Some (lit "General").
Proof.
  intros file st.
  assert (Hex : exists body st',
             generateNotes (Some (lit "text")) (Some (Upload file)) st
             = (Status200 body, st')).
  { eexists. eexists. vm_compute. reflexivity. }
  destruct Hex as (body & st' & Hrun). exists body, st'.
  split; [exact Hrun|].
  destruct (text_type_with_file _ _ _ _ Hrun) as (Hl & Hs & _).
  split; [exact Hl | exact Hs].
Defined.

(** ** The cleaning of the model's answers *)

Lemma first_split_prefix (sep : N) (s : jsstring) :
  exists rest, s = first (split sep s) ++ rest.
Proof.
  induction s as [|c s IH]; [exists []; reflexivity|].
  simpl. destruct (N.eqb c sep).
  - exists (c :: s). reflexivity.
  - destruct IH as (rest & Hrest). destruct (split sep s) as [|h t].
    + exists s. reflexivity.
    + exists rest. simpl in *. rewrite <- Hrest. reflexivity.
Qed.

Lemma first_split_no_sep (sep : N) (s : jsstring) :
  ~ In sep (first (split sep s)).
Proof.
  induction s as [|c s IH]; [intros []|].
  simpl. destruct (N.eqb c sep) eqn:E; [intros []|].
  apply N.eqb_neq in E. destruct (split sep s) as [|h t].
  - simpl. intros [H|[]]. contradiction.
  - simpl in *. intros [H|H]; [contradiction | auto].
Qed.

Lemma split_no_sep (sep : N) (s : jsstring) :
  ~ In sep s -> split sep s = [s].
Proof.
  induction s as [|c s IH]; [reflexivity|]. intros Hn. simpl.
  destruct (N.eqb c sep) eqn:E.
  - apply N.eqb_eq in E. exfalso. apply Hn. left. assumption.
  - rewrite IH; [reflexivity|]. intros H. apply Hn. right. assumption.
Qed.

Lemma first_split_In (sep : N) (s : jsstring) (c : N) :
  In c (first (split sep s)) -> In c s.
Proof.
  destruct (first_split_prefix sep s) as (rest & Hrest). intros H.
  rewrite Hrest. apply in_or_app. left. assumption.
Qed.

(** [trimStart] removes a run of white space at the front and stops at
    the first other code unit. *)
Lemma trimStart_suffix (s : jsstring) :
  exists ws, s = ws ++ trimStart s /\ Forall (fun c => isWhiteSpace c = true) ws.
Proof.
  induction s as [|c s IH]; [exists []; auto|].
  simpl. destruct (isWhiteSpace c) eqn:E.
  - destruct IH as (ws & Hs & Hws). exists (c :: ws). split.
    + simpl. rewrite <- Hs. reflexivity.
    + constructor; assumption.
  - exists []. auto.
Qed.

Lemma trimStart_head (s : jsstring) :
  match trimStart s with
  | [] => True
  | c :: _ => isWhiteSpace c = false
  end.
Proof.
  induction s as [|c s IH]; [exact I|]. simpl.
  destruct (isWhiteSpace c) eqn:E; [exact IH | exact E].
Qed.

Lemma trimStart_fixed (s : jsstring) :
  match s with [] => True | c :: _ => isWhiteSpace c = false end ->
  trimStart s = s.
Proof. destruct s as [|c s]; [reflexivity|]. simpl. intros ->. reflexivity. Qed.

Lemma trimStart_In (s : jsstring) (c : N) : In c (trimStart s) -> In c s.
Proof.
  destruct (trimStart_suffix s) as (ws & Hs & _). intros H.
  rewrite Hs. apply in_or_app. right. assumption.
Qed.

Lemma trim_In (s : jsstring) (c : N) : In c (trim s) -> In c s.
Proof.
  unfold trim, trimEnd. intros H. apply in_rev in H.
  apply trimStart_In in H. apply in_rev in H. apply trimStart_In in H.
  assumption.
Qed.

(** A trimmed string is left alone by [trim]. *)
Lemma trim_trim (s : jsstring) : trim (trim s) = trim s.
Proof.
  unfold trim, trimEnd.
  set (t := trimStart s). set (u := trimStart (rev t)).
  assert (Hu : match u with [] => True | c :: _ => isWhiteSpace c = false end)
    by apply trimStart_head.
  assert (Ht : match t with [] => True | c :: _ => isWhiteSpace c = false end)
    by apply trimStart_head.
  assert (Hru : match rev u with
                | [] => True
                | c :: _ => isWhiteSpace c = false
                end).
  { destruct (trimStart_suffix (rev t)) as (ws & Hs & _). fold u in Hs.
    assert (Hpre : t = rev u ++ rev ws).
    { rewrite <- rev_app_distr, <- Hs, rev_involutive. reflexivity. }
    destruct (rev u) as [|c r]; [exact I|].
    rewrite Hpre in Ht. exact Ht. }
  rewrite (trimStart_fixed (rev u) Hru), rev_involutive.
  rewrite (trimStart_fixed u Hu). reflexivity.
Qed.

(** X13. The language name [detectLanguage] extracts from an answer is
    one trimmed line: it holds no line feed and no period, [trim]
    leaves it as it is, and cleaning it again changes nothing. *)
Theorem cleanLanguage_is_clean (responseText : jsstring) :
  let language := cleanLanguage responseText in
  ~ In newline language
  /\ ~ In period language
  /\ trim language = language
  /\ cleanLanguage language = language.
Proof.
  intros language. subst language. unfold cleanLanguage.
  set (line := first (split newline (trim responseText))).
  set (name := first (split period line)).
  assert (Hnl : ~ In newline (trim name)).
  { intros H. apply trim_In in H. unfold name in H.
    apply first_split_In in H. exact (first_split_no_sep _ _ H). }
  assert (Hp : ~ In period (trim name)).
  { intros H. apply trim_In in H. exact (first_split_no_sep _ _ H). }
  repeat split; try assumption.
  - apply trim_trim.
  - rewrite trim_trim, (split_no_sep _ _ Hnl). cbn [first hd].
    rewrite (split_no_sep _ _ Hp). cbn [first hd]. apply trim_trim.
Qed.

(** X14. [normalizeDetected] gives [null] for the empty answer only;
    the string it gives otherwise holds no quotation mark of the five
    kinds, no line feed and no period, and is trimmed. *)
Theorem normalizeDetected_is_clean (raw : jsstring) :
  (normalizeDetected raw = None <-> raw = [])
  /\ forall s,
       normalizeDetected raw = Some s ->
       (forall c, In c s -> isQuoteMark c = false)
       /\ ~ In newline s
       /\ ~ In period s
       /\ trim s = s.
Proof.
  unfold normalizeDetected. split.
  - destruct raw; simpl; split; (reflexivity || discriminate).
  - intros s. destruct (truthy raw); [|discriminate]. cbn [negb].
    intros [= <-].
    set (body := trim (removeAll isQuoteMark raw)).
    set (line := first (split newline body)).
    set (name := first (split period line)).
    repeat split.
    + intros c H. apply trim_In in H. unfold name in H.
      apply first_split_In in H. unfold line in H.
      apply first_split_In in H. unfold body in H. apply trim_In in H.
      unfold removeAll in H. apply filter_In in H as [_ H].
      apply negb_true_iff. exact H.
    + intros H. apply trim_In in H. unfold name in H.
      apply first_split_In in H. exact (first_split_no_sep _ _ H).
    + intros H. apply trim_In in H. exact (first_split_no_sep _ _ H).
    + apply trim_trim.
Qed.

Lemma normalizeDetected_is_clean_witness :
  normalizeDetected (lit "Computer Science. It is.")
  = Some (lit "Computer Science")
  /\ ~ In period (lit "Computer Science").
Proof.
  assert (Hn : normalizeDetected (lit "Computer Science. It is.")
               = Some (lit "Computer Science")) by reflexivity.
  split; [exact Hn|].
  destruct (normalizeDetected_is_clean (lit "Computer Science. It is."))
    as [_ Hclean].
  destruct (Hclean _ Hn) as (_ & _ & Hp & _). exact Hp.
Defined.

(** ** More on the two detectors *)

Section DetectorFacts.

Context {host : Host}.

(** X15. Only the first 500 code units of a text reach the language
    detection: two texts that agree on them are detected alike, with
    the same request and the same result. *)
Theorem detectLanguage_reads_500 (t1 t2 : jsstring) (st : State) :
  firstn 500 t1 = firstn 500 t2 ->
  detectLanguage (Str t1) st = detectLanguage (Str t2) st.
Proof.
  intros Hprefix.
  assert (Hreq : languageRequest t1 = languageRequest t2).
  { unfold languageRequest, languagePrompt, substring0. rewrite Hprefix.
    reflexivity. }
  unfold detectLanguage. rewrite Hreq. reflexivity.
Qed.

Lemma find_first_match (f : jsstring -> bool) (l : list jsstring)
    (x : jsstring) :
  In x l -> f x = true ->
  (forall y, In y l -> f y = true -> y = x) ->
  find f l = Some x.
Proof.
  induction l as [|y l IH]; [intros []|]. intros Hin Hfx Huniq. simpl.
  destruct (f y) eqn:Hfy.
  - f_equal. apply Huniq; [left; reflexivity | assumption].
  - destruct Hin as [->|Hin]; [congruence|].
    apply IH; try assumption. intros z Hz. apply Huniq. right. assumption.
Qed.

(** X16. An answer that is a label of the taxonomy up to case is
    mapped to that label, by the first normalisation step, as long as
    lower-casing keeps the fifteen labels apart. *)
Theorem exact_label_is_kept (cleaned label : jsstring) :
  In label allowedSubjects ->
  cleaned <> [] ->
  toLowerCase cleaned = toLowerCase label ->
  (forall a b, In a allowedSubjects -> In b allowedSubjects ->
               toLowerCase a = toLowerCase b -> a = b) ->
  modelMapping (Some cleaned) = Some label.
Proof.
  intros Hin Hne Hlow Hinj.
  assert (Hexact : exactMatch cleaned = Some label).
  { unfold exactMatch. apply find_first_match.
    - exact Hin.
    - rewrite Hlow. apply eqb_refl.
    - intros y Hy Hfy. apply eqb_eq in Hfy. rewrite Hlow in Hfy.
      apply Hinj; assumption. }
  unfold modelMapping. cbn [truthyOpt].
  apply truthy_nonempty in Hne. rewrite Hne. cbv zeta.
  rewrite Hexact. pose proof (allowedSubjects_truthy _ Hin) as Ht.
  cbn [truthyOpt]. rewrite Ht. cbn [negb truthyOpt]. rewrite Ht.
  cbn [negb truthyOpt]. rewrite Ht. reflexivity.
Qed.

End DetectorFacts.

Lemma detectLanguage_reads_500_witness :
  detectLanguage (Str (repeat 97%N 500 ++ lit "left out"))
    (start [Resolved (lit "Latin")])
  = detectLanguage (Str (repeat 97%N 500 ++ lit "also left out"))
      (start [Resolved (lit "Latin")]).
Proof.
  apply detectLanguage_reads_500. vm_compute. reflexivity.
Defined.

Lemma exact_label_is_kept_witness :
  modelMapping (Some (lit "computer SCIENCE")) = Some (lit "Computer Science").
Proof.
  apply exact_label_is_kept.
  - apply memberOf_In. vm_compute. reflexivity.
  - discriminate.
  - vm_compute. reflexivity.
  - intros a b Ha Hb.
    assert (Hall : forallb
              (fun x => forallb
                          (fun y => negb (eqb (toLowerCase x) (toLowerCase y))
                                    || eqb x y)
                          allowedSubjects)
              allowedSubjects = true) by (vm_compute; reflexivity).
    rewrite forallb_forall in Hall. specialize (Hall a Ha).
    rewrite forallb_forall in Hall. specialize (Hall b Hb).
    intros Hlow. apply orb_true_iff in Hall as [Hne|Heq].
    + apply negb_true_iff, eqb_neq in Hne. contradiction.
    + apply eqb_eq. exact Heq.
Defined.

(** ** More on the keyword scores *)

Lemma objGet_map_values (A B : Type) (h : A -> B) (o : JSObject A)
    (k : jsstring) :
  objGet (map (fun e => (fst e, h (snd e))) o) k = option_map h (objGet o k).
Proof.
  induction o as [|[k' v] o IH]; [reflexivity|]. simpl.
  destruct (eqb k' k); [reflexivity | exact IH].
Qed.

Lemma objGet_In_distinct (V : Type) (o : JSObject V) (k : jsstring) (v : V) :
  NoDup (objKeys o) -> In (k, v) o -> objGet o k = Some v.
Proof.
  induction o as [|[k' v'] o IH]; [intros _ []|]. intros Hnd Hin.
  cbn [objKeys map fst] in Hnd. inversion Hnd as [|? ? Hnotin Hnd']; subst.
  simpl. destruct Hin as [[= -> ->]|Hin].
  - rewrite eqb_refl. reflexivity.
  - destruct (eqb k' k) eqn:E.
    + apply eqb_eq in E; subst. exfalso. apply Hnotin.
      apply in_map_iff. exists (k, v). auto.
    + apply IH; assumption.
Qed.

(** The score of a label is the number of its keywords found. *)
Lemma score_of_label (textLower label : jsstring) :
  objGet (computeScores textLower keywordMap) label
  = option_map (hits textLower) (objGet keywordMap label).
Proof. rewrite scores_of_text. apply objGet_map_values. Qed.

Lemma startsWith_app (s p post : jsstring) :
  startsWith s p = true -> startsWith (s ++ post) p = true.
Proof.
  revert s. induction p as [|x p IH]; intros s H;
    [destruct (s ++ post); reflexivity|].
  destruct s as [|y s]; [discriminate|]. simpl in *.
  apply andb_true_iff in H as [-> H]. simpl. auto.
Qed.

Lemma includes_app_r (s p post : jsstring) :
  includes s p = true -> includes (s ++ post) p = true.
Proof.
  induction s as [|y s IH]; intros H.
  - destruct p; [|discriminate]. destruct post; reflexivity.
  - change (startsWith (y :: s) p || includes s p = true) in H.
    change (startsWith (y :: s ++ post) p || includes (s ++ post) p = true).
    apply orb_true_iff in H as [H|H]; apply orb_true_iff.
    + left. apply (startsWith_app (y :: s) p post). assumption.
    + right. auto.
Qed.

Lemma includes_app_l (pre s p : jsstring) :
  includes s p = true -> includes (pre ++ s) p = true.
Proof.
  induction pre as [|y pre IH]; intros H; [assumption|].
  change (startsWith (y :: pre ++ s) p || includes (pre ++ s) p = true).
  apply orb_true_iff. right. auto.
Qed.

Lemma filter_length_le (A : Type) (f g : A -> bool) (l : list A) :
  (forall x, f x = true -> g x = true) ->
  List.length (filter f l) <= List.length (filter g l).
Proof.
  intros Himp. induction l as [|x l IH]; [reflexivity|]. simpl.
  destruct (f x) eqn:Hf.
  - rewrite (Himp x Hf). simpl. lia.
  - destruct (g x); simpl; lia.
Qed.

Lemma hits_grow (pre t post : jsstring) (keywords : list jsstring) :
  hits t keywords <= hits (pre ++ t ++ post) keywords.
Proof.
  unfold hits. apply filter_length_le. intros kw H.
  apply andb_true_iff in H as [-> H]. simpl.
  apply includes_app_l, includes_app_r. assumption.
Qed.

Lemma firstMaximum_bound (scores : JSObject nat) (label : jsstring) (s : nat) :
  firstMaximum scores label s -> forall e, In e scores -> snd e <= s.
Proof.
  intros (before & after & -> & Hb & Ha) e He.
  rewrite Forall_forall in Hb, Ha.
  apply in_app_or in He as [He|[<-|He]].
  - specialize (Hb e He). lia.
  - reflexivity.
  - exact (Ha e He).
Qed.

(** X17. Text added before or after a lower-cased text never lowers a
    score: every label keeps at least its score, and so does the top of
    the heuristic vote. *)
Theorem scores_grow_with_text (pre t post : jsstring) :
  (forall label n,
      objGet (computeScores t keywordMap) label = Some n ->
      exists n',
        objGet (computeScores (pre ++ t ++ post) keywordMap) label = Some n'
        /\ n <= n')
  /\ heuristicScore (computeScores t keywordMap)
     <= heuristicScore (computeScores (pre ++ t ++ post) keywordMap).
Proof.
  assert (Hlabel : forall label n,
             objGet (computeScores t keywordMap) label = Some n ->
             exists n',
               objGet (computeScores (pre ++ t ++ post) keywordMap) label
               = Some n'
               /\ n <= n').
  { intros label n. rewrite !score_of_label.
    destruct (objGet keywordMap label) as [kws|]; [|discriminate].
    intros [= <-]. eexists. split; [reflexivity | apply hits_grow]. }
  split; [exact Hlabel|].
  destruct (heuristic_top_first_maximum t) as (l1 & _ & Hmax1).
  destruct (heuristic_top_first_maximum (pre ++ t ++ post)) as (l2 & _ & Hmax2).
  cbv zeta in Hmax1, Hmax2.
  pose proof (firstMaximum_In _ _ _ Hmax1) as Hin1.
  assert (Hget : objGet (computeScores t keywordMap) l1
                 = Some (heuristicScore (computeScores t keywordMap))).
  { apply objGet_In_distinct; [|exact Hin1].
    rewrite scores_keys. apply keywordMap_keys_distinct. }
  destruct (Hlabel _ _ Hget) as (n' & Hget' & Hle).
  apply objGet_Some_In in Hget'.
  pose proof (firstMaximum_bound _ _ _ Hmax2 _ Hget') as Hb. simpl in Hb. lia.
Qed.

(** X18. The winner of the heuristic vote, read on the keyword table:
    its score is the number of its keywords found in the lower-cased
    text, every label before it in the table has strictly fewer
    keywords found, and no label after it has more. *)
Theorem heuristic_winner_in_table_order (textLower : jsstring) :
  let scores := computeScores textLower keywordMap in
  exists label keywords before after,
    heuristicSubject scores = Some label
    /\ keywordMap = before ++ (label, keywords) :: after
    /\ heuristicScore scores = hits textLower keywords
    /\ Forall (fun e => hits textLower (snd e) < hits textLower keywords) before
    /\ Forall (fun e => hits textLower (snd e) <= hits textLower keywords) after.
Proof.
  intros scores.
  destruct (heuristic_top_first_maximum textLower) as (label & Hsub & Hmax).
  fold scores in Hsub, Hmax.
  remember (heuristicScore scores) as s eqn:Hscore.
  destruct Hmax as (b & a & Hsplit & Hb & Ha).
  unfold scores in Hsplit. rewrite scores_of_text in Hsplit.
  apply map_eq_app in Hsplit as (before & rest & Hk & Hbefore & Hrest).
  apply map_eq_cons in Hrest as ([l kws] & after & -> & [= Hl Hs] & Hafter).
  cbn [fst snd] in Hl, Hs. subst l.
  exists label, kws, before, after.
  repeat split; try assumption.
  - symmetry. exact Hs.
  - rewrite <- Hbefore in Hb. rewrite Forall_map in Hb. cbn [snd] in Hb.
    rewrite Hs. exact Hb.
  - rewrite <- Hafter in Ha. rewrite Forall_map in Ha. cbn [snd] in Ha.
    rewrite Hs. exact Ha.
Qed.

Lemma scores_grow_with_text_witness :
  exists n',
    objGet (computeScores (lit "the " ++ lit "theorem" ++ lit " and its proof")
              keywordMap)
      (lit "Mathematics")
    = Some n'
    /\ 1 <= n'.
Proof.
  apply (proj1 (scores_grow_with_text (lit "the ") (lit "theorem")
                  (lit " and its proof"))).
  vm_compute. reflexivity.
Defined.

(** ** The page list *)

Local Open Scope Z_scope.

Lemma range_unfold (lo hi : Z) :
  lo <= hi -> range lo hi = lo :: range (lo + 1) hi.
Proof.
  intros Hle. unfold range.
  replace (Z.to_nat (hi - lo + 1)) with (S (Z.to_nat (hi - (lo + 1) + 1)))
    by lia.
  cbn [seq map]. rewrite Z.add_0_r. f_equal.
  rewrite <- seq_shift, map_map. apply map_ext. intros k. lia.
Qed.

Lemma range_empty (lo hi : Z) : hi < lo -> range lo hi = [].
Proof.
  intros Hlt. unfold range.
  replace (Z.to_nat (hi - lo + 1)) with 0%nat by lia. reflexivity.
Qed.

Lemma range_length (lo hi : Z) :
  List.length (range lo hi) = Z.to_nat (hi - lo + 1).
Proof. unfold range. rewrite length_map, length_seq. reflexivity. Qed.

Lemma range_In (lo hi x : Z) : In x (range lo hi) <-> lo <= x <= hi.
Proof.
  unfold range. rewrite in_map_iff. split.
  - intros (k & <- & Hk). apply in_seq in Hk. lia.
  - intros Hx. exists (Z.to_nat (x - lo)). split; [lia|].
    apply in_seq. lia.
Qed.

Lemma range_last (lo hi : Z) :
  lo <= hi -> exists r, range lo hi = r ++ [hi].
Proof.
  intros Hle. unfold range.
  replace (Z.to_nat (hi - lo + 1)) with (S (Z.to_nat (hi - lo))) by lia.
  rewrite seq_S, map_app. cbn [map Nat.add]. eexists. f_equal. f_equal. lia.
Qed.

(** A run of consecutive pages continues the list up to its last
    page. *)
Lemma continues_range (k : nat) :
  forall lo hi rest,
    Z.to_nat (hi - lo + 1) = k -> lo <= hi + 1 ->
    (continues (lo - 1) (map Page (range lo hi) ++ rest)
     <-> continues hi rest).
Proof.
  induction k as [|k IH]; intros lo hi rest Hk Hle.
  - rewrite range_empty by lia. replace (lo - 1) with hi by lia.
    reflexivity.
  - rewrite range_unfold by lia. cbn [map app continues].
    rewrite <- (IH (lo + 1) hi rest) by lia.
    replace (lo + 1 - 1) with lo by lia. intuition lia.
Qed.

Lemma pagesOf_app (a b : list PageItem) :
  pagesOf (a ++ b) = pagesOf a ++ pagesOf b.
Proof. unfold pagesOf. apply flat_map_app. Qed.

Lemma pagesOf_pages (l : list Z) : pagesOf (map Page l) = l.
Proof.
  induction l as [|x l IH]; [reflexivity|]. simpl. rewrite IH. reflexivity.
Qed.

(** X19. For a number of pages in the exact range and a current page
    between 1 and that number, the first entry of the page list is
    page 1, its last number is the last page, the current page is
    shown, and the list has no hole: two numbers side by side are
    consecutive, and an ellipsis comes after a number and before a
    number, with at least one page left out between them. *)
Theorem page_list_has_no_hole (currentPage totalPages : Z) :
  safePage totalPages ->
  1 <= currentPage <= totalPages ->
  let items := getPageNumbers currentPage totalPages in
  hd_error items = Some (Page 1)
  /\ continues 0 items
  /\ last (pagesOf items) 0 = totalPages
  /\ In currentPage (pagesOf items).
Proof.
  intros _ Hc items. subst items. unfold getPageNumbers.
  destruct (Z.leb_spec totalPages 5) as [Hsmall|Hbig].
  - rewrite pagesOf_pages. repeat split.
    + rewrite range_unfold by lia. reflexivity.
    + rewrite <- (app_nil_r (map Page _)).
      apply (continues_range _ 1 totalPages [] eq_refl); [lia | exact I].
    + destruct (range_last 1 totalPages) as (r & ->); [lia|].
      apply last_last.
    + apply range_In. lia.
  - set (startPage := Z.max 1 (currentPage - 2)).
    set (endPage := Z.min totalPages (startPage + 5 - 1)).
    assert (Hs : 1 <= startPage <= currentPage) by (unfold startPage; lia).
    assert (He : currentPage <= endPage <= totalPages)
      by (unfold endPage, startPage; lia).
    set (suffix := if endPage <? totalPages
                   then (if endPage <? totalPages - 1 then [Ellipsis] else [])
                        ++ [Page totalPages]
                   else []).
    assert (Hsuffix : continues endPage suffix
                      /\ last (range startPage endPage ++ pagesOf suffix) 0
                         = totalPages).
    { unfold suffix. destruct (Z.ltb_spec endPage totalPages) as [Hlt|Hge].
      - destruct (Z.ltb_spec endPage (totalPages - 1)); cbn [app continues];
          (split; [repeat split; lia|]).
        + cbn [pagesOf flat_map app].
          rewrite (app_assoc _ [] [totalPages]), last_last. reflexivity.
        + cbn [pagesOf flat_map app]. rewrite last_last. reflexivity.
      - split; [exact I|]. cbn [pagesOf flat_map]. rewrite app_nil_r.
        destruct (range_last startPage endPage) as (r & ->); [lia|].
        rewrite last_last. lia. }
    destruct Hsuffix as [Hcont Hlast].
    assert (Hrange : forall prev,
               prev = startPage - 1 ->
               continues prev (map Page (range startPage endPage) ++ suffix)).
    { intros prev ->.
      apply (continues_range _ startPage endPage suffix eq_refl); [lia|].
      exact Hcont. }
    assert (Hnonempty : exists r, range startPage endPage = startPage :: r)
      by (exists (range (startPage + 1) endPage); apply range_unfold; lia).
    repeat split.
    + destruct (Z.ltb_spec 1 startPage) as [H1|H1]; [reflexivity|].
      destruct Hnonempty as (r & ->). cbn [app map hd_error].
      do 2 f_equal. lia.
    + destruct (Z.ltb_spec 1 startPage) as [H1|H1].
      * destruct (Z.ltb_spec 2 startPage) as [H2|H2]; cbn [app continues].
        -- split; [lia|]. destruct Hnonempty as (r & Hr).
           specialize (Hrange (startPage - 1) eq_refl). rewrite Hr in *.
           cbn [map app continues] in *. split; [lia|]. tauto.
        -- split; [lia|]. apply Hrange. lia.
      * cbn [app]. apply Hrange. lia.
    + rewrite !pagesOf_app, pagesOf_pages.
      destruct Hnonempty as (r & Hr).
      destruct (Z.ltb_spec 1 startPage) as [H1|H1].
      * destruct (2 <? startPage); cbn [pagesOf flat_map app];
          rewrite Hr in *; cbn [app last] in *; exact Hlast.
      * cbn [pagesOf flat_map app]. exact Hlast.
    + rewrite !pagesOf_app, pagesOf_pages. apply in_or_app. right.
      apply in_or_app. left. apply range_In. lia.
Qed.

(** X20. Whatever the current page and the number of pages in the
    exact range, the list has at most nine entries, at most seven of
    them page numbers. *)
Theorem page_list_is_short (currentPage totalPages : Z) :
  safePage currentPage ->
  safePage totalPages ->
  let items := getPageNumbers currentPage totalPages in
  (List.length items <= 9)%nat /\ (List.length (pagesOf items) <= 7)%nat.
Proof.
  intros _ _ items. subst items. unfold getPageNumbers.
  destruct (Z.leb_spec totalPages 5) as [Hsmall|Hbig].
  - rewrite pagesOf_pages, length_map, range_length. lia.
  - set (startPage := Z.max 1 (currentPage - 2)).
    set (endPage := Z.min totalPages (startPage + 5 - 1)).
    rewrite !pagesOf_app, pagesOf_pages, !length_app, length_map, range_length.
    assert (Hwindow : (Z.to_nat (endPage - startPage + 1) <= 5)%nat)
      by (unfold endPage; lia).
    destruct (1 <? startPage); [destruct (2 <? startPage)|];
      (destruct (endPage <? totalPages);
       [destruct (endPage <? totalPages - 1)|]);
      cbn [List.length app pagesOf flat_map]; lia.
Qed.

(** X21. In the exact range, a current page more than two pages beyond
    the last one, with more than five pages in all, leaves a list of
    page 1 and an ellipsis: the window of numbers is empty and the last
    page is not shown. *)
Theorem page_list_beyond_the_end (currentPage totalPages : Z) :
  safePage currentPage ->
  safePage totalPages ->
  5 < totalPages ->
  totalPages + 2 < currentPage ->
  getPageNumbers currentPage totalPages = [Page 1; Ellipsis].
Proof.
  intros _ _ Hbig Hfar. unfold getPageNumbers.
  destruct (Z.leb_spec totalPages 5) as [Hsmall|_]; [lia|].
  replace (Z.max 1 (currentPage - 2)) with (currentPage - 2) by lia.
  replace (Z.min totalPages (currentPage - 2 + 5 - 1)) with totalPages by lia.
  rewrite range_empty by lia.
  destruct (Z.ltb_spec 1 (currentPage - 2)); [|lia].
  destruct (Z.ltb_spec 2 (currentPage - 2)); [|lia].
  rewrite Z.ltb_irrefl. reflexivity.
Qed.

Lemma page_list_has_no_hole_witness :
  getPageNumbers 7 20
  = [Page 1; Ellipsis; Page 5; Page 6; Page 7; Page 8; Page 9; Ellipsis;
     Page 20]
  /\ hd_error (getPageNumbers 7 20) = Some (Page 1)
  /\ continues 0 (getPageNumbers 7 20)
  /\ last (pagesOf (getPageNumbers 7 20)) 0 = 20
  /\ In 7 (pagesOf (getPageNumbers 7 20)).
Proof.
  split; [reflexivity|].
  apply (page_list_has_no_hole 7 20); unfold safePage; lia.
Defined.

Lemma page_list_is_short_witness :
  (List.length (getPageNumbers 7 20) <= 9)%nat
  /\ (List.length (pagesOf (getPageNumbers 7 20)) <= 7)%nat.
Proof. apply (page_list_is_short 7 20); unfold safePage; lia. Defined.

Lemma page_list_beyond_the_end_witness :
  getPageNumbers 13 10 = [Page 1; Ellipsis].
Proof. apply page_list_beyond_the_end; unfold safePage; lia. Defined.

Local Close Scope Z_scope.

(** ** The notes browser *)

Section BrowserFacts.

Variables Note Pagination Filters : Type.
Variable noFilters : Filters.

(** X24. However the call of the notes service settles, [fetchNotes]
    leaves the view not loading; it shows an error exactly when the call
    was rejected or did not answer "success", and then the message is
    not empty, the list of notes is empty and the pagination is gone,
    while the applied filters and the current page stay as they were;
    without an error the notes are those of the answer and the current
    page is the page asked for. *)
Theorem fetch_leaves_consistent_view
    (outcome : Outcome (@NotesBrowser.Response Note Pagination Filters))
    (page : Z) (v : @NotesBrowser.View Note Pagination Filters) :
  let v' := NotesBrowser.fetchNotes noFilters outcome page v in
  NotesBrowser.loading v' = false
  /\ match NotesBrowser.error v' with
     | Some message =>
         message <> []
         /\ NotesBrowser.notes v' = []
         /\ NotesBrowser.pagination v' = None
         /\ NotesBrowser.appliedFilters v' = NotesBrowser.appliedFilters v
         /\ NotesBrowser.currentPage v' = NotesBrowser.currentPage v
         /\ (forall r, outcome = Resolved r ->
                       NotesBrowser.status r <> lit "success")
     | None =>
         exists r,
           outcome = Resolved r
           /\ NotesBrowser.status r = lit "success"
           /\ NotesBrowser.notes v' = NotesBrowser.response_notes r
           /\ NotesBrowser.pagination v' = NotesBrowser.response_pagination r
           /\ NotesBrowser.currentPage v' = page
     end.
Proof.
  intros v'. subst v'. unfold NotesBrowser.fetchNotes.
  assert (Hfailed : forall message,
             let f := NotesBrowser.failed message v in
             NotesBrowser.loading f = false
             /\ exists m,
                  NotesBrowser.error f = Some m /\ m <> []
                  /\ NotesBrowser.notes f = []
                  /\ NotesBrowser.pagination f = None
                  /\ NotesBrowser.appliedFilters f = NotesBrowser.appliedFilters v
                  /\ NotesBrowser.currentPage f = NotesBrowser.currentPage v).
  { intros message f. split; [reflexivity|]. eexists.
    split; [reflexivity|]. repeat split.
    destruct (truthy message) eqn:Hm.
    - apply truthy_nonempty. exact Hm.
    - discriminate. }
  destruct outcome as [r|message].
  - destruct (eqb (NotesBrowser.status r) (lit "success")) eqn:Hs.
    + split; [reflexivity|]. cbn [NotesBrowser.error]. exists r.
      apply eqb_eq in Hs. repeat split. exact Hs.
    + destruct (Hfailed (lit "Failed to fetch notes"))
        as (Hl & m & -> & Hm & Hn & Hp & Hf & Hc).
      split; [exact Hl|]. repeat split; try assumption.
      intros r' [= <-]. apply eqb_neq. exact Hs.
  - destruct (Hfailed message) as (Hl & m & -> & Hm & Hn & Hp & Hf & Hc).
    split; [exact Hl|]. repeat split; try assumption.
    intros r' Hr. discriminate.
Qed.

End BrowserFacts.

(** ** The query of the notes service *)

Lemma append_truthy (name : jsstring) (v : NotesApi.Value) :
  Forall (fun e => NotesApi.truthyValue (snd e) = true)
    (NotesApi.append name v).
Proof.
  unfold NotesApi.append. destruct (NotesApi.truthyValue v) eqn:Hv.
  - repeat constructor. exact Hv.
  - constructor.
Qed.

Lemma append_names (name : jsstring) (v : NotesApi.Value) :
  map fst (NotesApi.append name v)
  = if NotesApi.truthyValue v then [name] else [].
Proof.
  unfold NotesApi.append. destruct (NotesApi.truthyValue v); reflexivity.
Qed.

Lemma NoDup_chosen (A : Type) (l : list (A * bool)) :
  NoDup (map fst l) ->
  NoDup (flat_map (fun e : A * bool => if snd e then [fst e] else []) l).
Proof.
  induction l as [|[a b] l IH]; [constructor|]. cbn [map fst].
  intros Hnd. inversion Hnd as [|? ? Hnotin Hnd']; subst.
  cbn [flat_map fst snd]. destruct b; cbn [app]; [|auto].
  constructor; [|auto]. intros Hin. apply Hnotin.
  apply in_flat_map in Hin as ([a' b'] & He & Hin). cbn [fst snd] in Hin.
  destruct b'; [|destruct Hin]. destruct Hin as [<-|[]].
  apply in_map_iff. exists (a', true). auto.
Qed.

(** X25. The query [fetchNotes] builds never holds an empty value: a
    filter that is the empty string, or a page or limit that is 0, is
    left out. No name comes twice, and a page or a limit that is not
    given goes out as 1 and as 10. *)
Theorem query_has_no_empty_value (params : NotesApi.Params) :
  let query := NotesApi.queryParams params in
  Forall (fun e => NotesApi.truthyValue (snd e) = true) query
  /\ NoDup (map fst query)
  /\ (NotesApi.page params = None ->
      In (lit "page", NotesApi.Num 1) query)
  /\ (NotesApi.limit params = None ->
      In (lit "limit", NotesApi.Num 10) query).
Proof.
  intros query. subst query. unfold NotesApi.queryParams. split; [|split].
  - repeat (apply Forall_app; split); apply append_truthy.
  - rewrite !map_app, !append_names.
    match goal with
    | |- NoDup ((if ?b1 then _ else _) ++ (if ?b2 then _ else _)
                ++ (if ?b3 then _ else _) ++ (if ?b4 then _ else _)
                ++ (if ?b5 then _ else _) ++ (if ?b6 then _ else _)
                ++ (if ?b7 then _ else _) ++ (if ?b8 then _ else _)
                ++ (if ?b9 then _ else _) ++ (if ?b10 then _ else _)) =>
        rewrite <- (app_nil_r (if b10 then _ else _));
        apply (NoDup_chosen _
                 [(lit "page", b1); (lit "limit", b2); (lit "search", b3);
                  (lit "inputType", b4); (lit "startDate", b5);
                  (lit "endDate", b6); (lit "language", b7);
                  (lit "subject", b8); (lit "sort", b9); (lit "sortBy", b10)])
    end.
    apply distinct_NoDup. vm_compute. reflexivity.
  - split; intros ->; cbn [NotesApi.orDefault];
      unfold NotesApi.append at 1 2; cbn [NotesApi.truthyValue Z.eqb negb].
    + left. reflexivity.
    + apply in_or_app. right. left. reflexivity.
Qed.

Lemma query_has_no_empty_value_witness :
  let params :=
    {| NotesApi.page := None; NotesApi.limit := Some (NotesApi.Num 10);
       NotesApi.search := Some (NotesApi.Text []);
       NotesApi.inputType := None;
       NotesApi.startDate := Some (NotesApi.Text (lit "2024-01-01"));
       NotesApi.endDate := Some (NotesApi.Text []);
       NotesApi.language := Some (NotesApi.Text []);
       NotesApi.subject := Some (NotesApi.Text (lit "Physics"));
       NotesApi.sort := None; NotesApi.sortBy := None |} in
  NotesApi.queryParams params
  = [(lit "page", NotesApi.Num 1); (lit "limit", NotesApi.Num 10);
     (lit "startDate", NotesApi.Text (lit "2024-01-01"));
     (lit "subject", NotesApi.Text (lit "Physics"))]
  /\ In (lit "page", NotesApi.Num 1) (NotesApi.queryParams params).
Proof.
  intros params. split; [reflexivity|].
  destruct (query_has_no_empty_value params) as (_ & _ & Hpage & _).
  apply Hpage. reflexivity.
Defined.

(** ** The parts of the heuristic and of the branches that agree *)

Section AgreementFacts.

Context {host : Host}.

(** X26. As long as the first language result is not a suspicious one,
    the text branch and the audio-transcript branch detect alike on the
    same content: the same language, the same subject, and the same
    state afterwards. *)
Theorem transcript_detects_like_text (content : Content) (st : State) :
  fst (detectLanguage content st) <> lit "unknown" ->
  includes (fst (detectLanguage content st)) (lit "English") = false ->
  includes (fst (detectLanguage content st)) (lit "##") = false ->
  detectedLanguage (fst (textBranch content st))
  = detectedLanguage (fst (transcriptBranch content st))
  /\ detectedSubject (fst (textBranch content st))
     = detectedSubject (fst (transcriptBranch content st))
  /\ snd (textBranch content st) = snd (transcriptBranch content st).
Proof.
  intros Hu He Hh. apply transcript_agrees_without_retry.
  unfold suspicious. rewrite He, Hh. apply eqb_neq in Hu. rewrite Hu.
  reflexivity.
Qed.

End AgreementFacts.

(** X28. The scoring loop leaves one score for each key of the keyword
    table, in the table's order, and the score of a label is the number
    of entries of its keyword list that the lower-cased text includes;
    a label without a list has no score. *)
Theorem scores_count_keywords (textLower : jsstring) :
  objKeys (computeScores textLower keywordMap) = objKeys keywordMap
  /\ forall label,
       objGet (computeScores textLower keywordMap) label
       = option_map (hits textLower) (objGet keywordMap label).
Proof.
  split; [apply scores_keys | intros label; apply score_of_label].
Qed.

Lemma transcript_detects_like_text_witness :
  let st := start [Resolved (lit "Spanish"); Resolved (lit "History")] in
  detectedLanguage (fst (textBranch (Str (lit "hola")) st))
  = detectedLanguage (fst (transcriptBranch (Str (lit "hola")) st))
  /\ detectedSubject (fst (textBranch (Str (lit "hola")) st))
     = detectedSubject (fst (transcriptBranch (Str (lit "hola")) st))
  /\ snd (textBranch (Str (lit "hola")) st)
     = snd (transcriptBranch (Str (lit "hola")) st).
Proof.
  intros st. apply transcript_detects_like_text.
  - apply eqb_neq. reflexivity.
  - reflexivity.
  - reflexivity.
Defined.

